(** * winrandom: a shallow embedding of [src/winrandom.c]

    The C extension module exposes three operations to Python:
    [winrandom.long()], [winrandom.bytes(N)] and [winrandom.range(MAX)].
    Each one talks to the Windows CryptoAPI ([CryptAcquireContext],
    [CryptGenRandom], [CryptReleaseContext]).

    The three C functions are embedded as computations in a small
    state-and-exception monad.  The state holds the function-local
    [static] of [winrandom_range] together with the bookkeeping of a mock
    CryptoAPI (handles acquired and released, byte counts requested); the
    answers of the operating system and of the interpreter (does a
    provider exist, does [malloc] succeed, what does each [CryptGenRandom]
    call deliver, what does [Py_BuildValue] make of the format ["y#"]) are
    an explicit environment.

    Target ABI: the module only builds against [windows.h], so the C types
    are those of Windows (LLP64, little-endian): [long], [unsigned long],
    [unsigned int] and [DWORD] are all 32 bits wide. *)

From Stdlib Require Import ZArith List Bool Lia String.
From Stdlib.Strings Require Import Byte.
Import ListNotations.

Local Open Scope Z_scope.

(** ** C types *)

Definition sizeof_ulong : nat := 4.
Definition ULONG_BITS : Z := 8 * Z.of_nat sizeof_ulong.
Definition ULONG_MOD : Z := 2 ^ ULONG_BITS.
Definition UINT_MOD : Z := 2 ^ 32.
Definition LONG_MIN : Z := - 2 ^ 31.
Definition LONG_MAX : Z := 2 ^ 31 - 1.
Definition INT_MAX : Z := 2 ^ 31 - 1.

Definition byte_val (b : byte) : Z := Z.of_N (Byte.to_N b).

(** The value of an unsigned integer object whose bytes in memory, lowest
    address first, are [bs] (little-endian). *)
Fixpoint le_decode (bs : list byte) : Z :=
  match bs with
  | [] => 0
  | b :: tl => byte_val b + 256 * le_decode tl
  end.

(** Writing [bs] at the start of an object whose bytes are [obj]: the bytes
    past [length bs] keep their old value. *)
Definition write_prefix (bs obj : list byte) : list byte :=
  bs ++ skipn (List.length bs) obj.

(** ** <math.h>

    [ceil(log(x) / log(2))] on doubles is embedded by its exact real value,
    the least [k] with [x <= 2^k].  The arguments reached here are the
    integers [1 <= x < 2^32], all exact as doubles.  Off the powers of two
    the quotient stays farther from an integer than the rounding error of
    [log] and of the division, so [ceil] yields that value; so it does at
    [x = 1] ([log(1.0)] is exactly 0) and at [x = 2] (a quotient of two
    equal doubles).  At a larger power of two the rounded quotient can
    exceed the integer: with a correctly rounded [log] it does so at
    [x = 2^29] and [x = 2^31], where the code computes 30 and 32.  The
    byte count [t] (4 in both cases) and the test [upperLimitBits > 15]
    are the same for either value, so [winrandom_range] behaves as
    embedded there too. *)
Definition ceil_log2 (x : Z) : Z := Z.log2_up x.

(** [ceil(x / 8)] for an integer-valued double [x]. *)
Definition ceil_div8 (x : Z) : Z := - ((- x) / 8).

(** ** The Python side *)

Inductive PyExcType : Type :=
| PyExc_ValueError
| PyExc_MemoryError
| PyExc_SystemError
| WinRandomException.   (* the module's own [st->error] *)

Record PyErr : Type := mkErr { exc_type : PyExcType; exc_msg : string }.

(** [PyArg_ParseTuple(args, "l", &r)]: the Python integer must fit a C
    [long]; the source hands in the address of an [unsigned long], which
    then holds the same 32 bits. *)
Definition PyArg_ParseTuple_l (arg : Z) : option Z :=
  if (LONG_MIN <=? arg) && (arg <=? LONG_MAX)
  then Some (arg mod ULONG_MOD) else None.

(** [PyArg_ParseTuple(args, "I", &num_bytes)]: conversion to
    [unsigned int] without overflow checking. *)
Definition PyArg_ParseTuple_I (arg : Z) : option Z :=
  Some (arg mod UINT_MOD).

(** [Py_BuildValue("k", c)]: the Python integer with the value of the
    [unsigned long]. *)
Definition Py_BuildValue_k (c : Z) : Z := c.

(** ** Process state and environment *)

Record State : Type := mkState {
  iContinousRndTest : Z;   (* the [static unsigned long] of winrandom_range *)
  acquired : nat;          (* successful CryptAcquireContext calls *)
  released : nat;          (* CryptReleaseContext calls *)
  fetched : list Z         (* dwLen of each CryptGenRandom call, latest first *)
}.

(** Line 63: [static unsigned long iContinousRndTest = 0L;], and a
    CryptoAPI that has not been called yet. *)
Definition initial_state : State := mkState 0 0 0 [].

(** The four ways a call changes the state: a handle is opened, a handle
    is closed, the generator is asked for [n] bytes, [c] is stored in the
    static. *)
Definition opened (s : State) : State :=
  mkState (iContinousRndTest s) (S (acquired s)) (released s) (fetched s).

Definition closed (s : State) : State :=
  mkState (iContinousRndTest s) (acquired s) (S (released s)) (fetched s).

Definition asked (n : Z) (s : State) : State :=
  mkState (iContinousRndTest s) (acquired s) (released s) (n :: fetched s).

Definition stored (c : Z) (s : State) : State :=
  mkState c (acquired s) (released s) (fetched s).

(** What one [CryptGenRandom] call does: fail, or fill the buffer.  A
    successful call is given as the generator's output stream, of which
    the call takes as many bytes as it was asked for. *)
Inductive GenEvent : Type :=
| GenFail
| GenData (pool : nat -> byte).

(** What the interpreter makes of [Py_BuildValue("y#", s, num_bytes)].  The
    source does not define [PY_SSIZE_T_CLEAN], so the count after ['#'] is
    read from the argument list as a C [int] by CPython before 3.10, and
    CPython 3.10 to 3.12 refuses the format with a [SystemError]; either
    interpreter may also fail to allocate the bytes object.  (From 3.13 on
    the count is read as [Py_ssize_t], which for an [unsigned int] argument
    is undefined in C; that interpreter is not covered.) *)
Inductive BuildAnswer : Type :=
| BuildAsInt
| BuildRefused
| BuildNoMemory.

Record Env : Type := mkRuntimeEnv {
  aes_ok : bool;           (* CryptAcquireContext(.., PROV_RSA_AES, ..) *)
  full_ok : bool;          (* CryptAcquireContext(.., PROV_RSA_FULL, ..) *)
  malloc_ok : bool;        (* malloc returned non-NULL *)
  gen : list GenEvent;     (* the coming CryptGenRandom calls, in order *)
  build : BuildAnswer      (* the answer of Py_BuildValue("y#", ..) *)
}.

(** An environment whose interpreter reads the count as an [int] and has
    memory for the result. *)
Definition mkEnv (aes full mem : bool) (script : list GenEvent) : Env :=
  mkRuntimeEnv aes full mem script BuildAsInt.

(** ** The monad *)

Inductive Outcome (A : Type) : Type :=
| Return (v : A)           (* the C function returned a Python object *)
| Raise (e : PyErr)        (* it returned NULL with an exception set *)
| Pending                  (* the scripted generator ran out: still running *)
| Undefined.               (* the C code read outside an object *)

Arguments Return {A} v.
Arguments Raise {A} e.
Arguments Pending {A}.
Arguments Undefined {A}.

Definition M (A : Type) : Type := State -> Outcome A * State.

Definition ret {A} (v : A) : M A := fun s => (Return v, s).
Definition raise {A} (ty : PyExcType) (msg : string) : M A :=
  fun s => (Raise (mkErr ty msg), s).
Definition pending {A} : M A := fun s => (Pending, s).
Definition undefined {A} : M A := fun s => (Undefined, s).

Definition bind {A B} (m : M A) (k : A -> M B) : M B :=
  fun s =>
    match m s with
    | (Return v, s') => k v s'
    | (Raise e, s') => (Raise e, s')
    | (Pending, s') => (Pending, s')
    | (Undefined, s') => (Undefined, s')
    end.

Declare Scope winrandom_scope.
Delimit Scope winrandom_scope with wr.
Notation "x <- m ;; k" := (bind m (fun x => k))
  (at level 61, m at next level, right associativity) : winrandom_scope.
Notation "m ;;; k" := (bind m (fun _ => k))
  (at level 61, right associativity) : winrandom_scope.
Local Open Scope winrandom_scope.

(** Lines 26-31: [error_out] sets the module's exception and returns NULL. *)
Definition error_out {A} (message : string) : M A :=
  raise WinRandomException message.

(** An [unsigned int] argument read back as a C [int]. *)
Definition as_int (n : Z) : Z :=
  if n <? 2 ^ 31 then n else n - 2 ^ 32.

(** [strlen] inside an object whose bytes are [s]: the index of the first
    zero byte, or nothing when [s] holds none and the scan leaves the
    object. *)
Fixpoint strlen (s : list byte) : option nat :=
  match s with
  | [] => None
  | b :: tl =>
      if Byte.eqb b x00 then Some O
      else match strlen tl with
           | Some k => Some (S k)
           | None => None
           end
  end.

(** [Py_BuildValue("y#", s, num_bytes)], line 156.  With the count read as
    an [int], a count of [2^31] or more arrives negative, and a negative
    count makes [Py_BuildValue] take the length from [strlen(s)]; otherwise
    the first [num_bytes] bytes at [s] are copied. *)
Definition Py_BuildValue_y (answer : BuildAnswer) (s : list byte)
           (num_bytes : Z) : M (list byte) :=
  match answer with
  | BuildRefused =>
      raise PyExc_SystemError
            "PY_SSIZE_T_CLEAN macro must be defined for '#' formats"
  | BuildNoMemory => raise PyExc_MemoryError EmptyString
  | BuildAsInt =>
      let n := as_int num_bytes in
      if n <? 0
      then match strlen s with
           | Some m => ret (firstn m s)
           | None => undefined
           end
      else ret (firstn (Z.to_nat n) s)
  end.

(** ** The mock CryptoAPI *)

Definition CryptAcquireContext (ok : bool) : M bool :=
  fun s => (Return ok, if ok then opened s else s).

Definition CryptReleaseContext : M unit :=
  fun s => (Return tt, closed s).

(** The bytes a call for [dwLen] bytes takes from the generator's output. *)
Definition deliver (pool : nat -> byte) (dwLen : Z) : list byte :=
  map pool (seq 0 (Z.to_nat dwLen)).

Definition CryptGenRandom (ev : GenEvent) (dwLen : Z) : M (option (list byte)) :=
  fun s =>
    (Return match ev with
            | GenFail => None
            | GenData pool => Some (deliver pool dwLen)
            end,
     asked dwLen s).

(** "try stronger crypto provider first", the block shared by the three
    functions (lines 80-86, 143-149, 167-173). *)
Definition acquire_provider (env : Env) : M unit :=
  ok <- CryptAcquireContext (aes_ok env) ;;
  ok <- (if ok then ret true else CryptAcquireContext (full_ok env)) ;;
  if ok then ret tt
  else error_out "Unable to acquire Windows random number generator".

Definition load_iContinousRndTest : M Z :=
  fun s => (Return (iContinousRndTest s), s).

Definition store_iContinousRndTest (c : Z) : M unit :=
  fun s => (Return tt, stored c s).

(** ** winrandom_range (lines 60-119) *)

(** Line 90: [upperLimitBits = ceil(log(r-1) / log(2))]. *)
Definition upperLimitBits (r : Z) : Z := ceil_log2 (r - 1).

(** Line 91: [t = (long) ceil(upperLimitBits/8)]. *)
Definition t (bits : Z) : Z := ceil_div8 bits.

(** Lines 96 and 104: [c = 0L], then the delivered bytes written at [&c]. *)
Definition candidate (bs : list byte) : Z :=
  le_decode (write_prefix bs (repeat x00 sizeof_ulong)).

Inductive LoopStep : Type :=
| Break (c : Z)
| Continue.

(** One turn of the [while(1)] loop, lines 95-114. *)
Definition range_body (bits tlen r : Z) (ev : GenEvent) : M LoopStep :=
  retVal <- CryptGenRandom ev tlen ;;
  match retVal with
  | None => error_out "Unable to fetch random data from Windows"
  | Some bs =>
      let c := candidate bs in
      prev <- load_iContinousRndTest ;;
      if (15 <? bits) && (c =? prev)
      then error_out "Continuous random number generator test failed"
      else
        store_iContinousRndTest c ;;;
        ret (if c <? r then Break c else Continue)
  end.

(** The loop itself; each turn consumes one scripted generator call. *)
Fixpoint range_loop (script : list GenEvent) (bits tlen r : Z) : M Z :=
  match script with
  | [] => pending
  | ev :: rest =>
      step <- range_body bits tlen r ev ;;
      match step with
      | Break c => ret c
      | Continue => range_loop rest bits tlen r
      end
  end.

Definition winrandom_range (env : Env) (arg : Z) : M Z :=
  match PyArg_ParseTuple_l arg with
  | None => raise PyExc_ValueError "unable to parse arguments"
  | Some r =>
      if r <=? 1
      then error_out
             "rand_max needs to be >1 because for 1 the upperLimitBits will be 0 and no random number  will be returned; the logic of this function is that 0 <= n <= rand_max-1)"
      else
        acquire_provider env ;;;
        let bits := upperLimitBits r in
        let tlen := t bits in
        c <- range_loop (gen env) bits tlen r ;;
        CryptReleaseContext ;;;
        ret (Py_BuildValue_k c)
  end.

(** ** winrandom_bytes (lines 122-157) *)

(** [malloc(size)]: NULL, or a fresh buffer of [size] bytes; its content,
    indeterminate in C, is taken as zero bytes. *)
Definition malloc (ok : bool) (size : Z) : M (option (list byte)) :=
  ret (if ok then Some (repeat x00 (Z.to_nat size)) else None).

(** The first scripted generator call, for the functions that make one. *)
Definition next_event (env : Env) : M GenEvent :=
  match gen env with
  | [] => pending
  | ev :: _ => ret ev
  end.

Definition winrandom_bytes (env : Env) (arg : Z) : M (list byte) :=
  match PyArg_ParseTuple_I arg with
  | None => raise PyExc_ValueError "unable to parse arguments"
  | Some num_bytes =>
      s <- malloc (malloc_ok env) num_bytes ;;
      match s with
      | None => raise PyExc_MemoryError "Memory issue"
      | Some buf =>
          acquire_provider env ;;;
          ev <- next_event env ;;
          ok <- CryptGenRandom ev num_bytes ;;
          match ok with
          | None => error_out "Unable to fetch random data from Windows"
          | Some bs =>
              Py_BuildValue_y (build env) (write_prefix bs buf) num_bytes
          end
      end
  end.

(** ** winrandom_long (lines 160-182) *)

Definition winrandom_long (env : Env) : M Z :=
  acquire_provider env ;;;
  ev <- next_event env ;;
  ok <- CryptGenRandom ev (Z.of_nat sizeof_ulong) ;;
  match ok with
  | None => error_out "Unable to fetch random data from Windows"
  | Some pbRandomData => ret (Py_BuildValue_k (le_decode pbRandomData))
  end.

(** ** The error classes of the specification *)

Definition InvalidArgument : PyErr :=
  mkErr WinRandomException
    "rand_max needs to be >1 because for 1 the upperLimitBits will be 0 and no random number  will be returned; the logic of this function is that 0 <= n <= rand_max-1)".
Definition SourceUnavailable : PyErr :=
  mkErr WinRandomException "Unable to acquire Windows random number generator".
Definition GenerationFailed : PyErr :=
  mkErr WinRandomException "Unable to fetch random data from Windows".
Definition EntropyTestFailed : PyErr :=
  mkErr WinRandomException "Continuous random number generator test failed".
Definition AllocationFailed : PyErr :=
  mkErr PyExc_MemoryError "Memory issue".

(** The two exceptions [Py_BuildValue] can leave behind at line 156. *)
Definition FormatRefused : PyErr :=
  mkErr PyExc_SystemError
        "PY_SSIZE_T_CLEAN macro must be defined for '#' formats".
Definition NoMemory : PyErr := mkErr PyExc_MemoryError EmptyString.

(** The exception of lines 71 and 131, raised when the argument tuple does
    not parse. *)
Definition ParseError : PyErr :=
  mkErr PyExc_ValueError "unable to parse arguments".

(** ** Sequences of candidates *)

(** Whether some candidate of [cs] equals the one drawn just before it,
    [prev] being the value stored before the first. *)
Fixpoint repeats (prev : Z) (cs : list Z) : bool :=
  match cs with
  | [] => false
  | c :: tl => (c =? prev) || repeats c tl
  end.

(** ** Widths *)

(** The minimum number of bits required to represent [n >= 0]: the number
    of its binary digits. *)
Definition min_bits (n : Z) : Z :=
  if n <=? 0 then 0 else Z.log2 n + 1.

(** ** Encoding a value into bytes *)

Definition byte_of_Z (z : Z) : byte :=
  match Byte.of_N (Z.to_N (z mod 256)) with
  | Some b => b
  | None => x00
  end.

Fixpoint le_encode (n : nat) (v : Z) : list byte :=
  match n with
  | O => []
  | S k => byte_of_Z v :: le_encode k (v / 256)
  end.

(** ** Sample environments *)

(** A generator output stream that starts with [bs] and goes on with zero
    bytes. *)
Definition pool_of (bs : list byte) : nat -> byte :=
  fun i => nth i bs x00.

(** Both providers exist, [malloc] succeeds, and [CryptGenRandom] answers
    as scripted. *)
Definition healthy (script : list GenEvent) : Env :=
  mkEnv true true true script.

(** * Arithmetic of bytes and widths *)

Lemma byte_val_range (b : byte) : 0 <= byte_val b < 256.
Proof.
  unfold byte_val.
  pose proof (Byte.to_N_bounded b) as Hb.
  lia.
Qed.

Lemma le_decode_range (bs : list byte) :
  0 <= le_decode bs < 256 ^ Z.of_nat (List.length bs).
Proof.
  induction bs as [|b tl IH].
  - simpl. lia.
  - change (le_decode (b :: tl)) with (byte_val b + 256 * le_decode tl).
    change (List.length (b :: tl)) with (S (List.length tl)).
    rewrite Nat2Z.inj_succ, Z.pow_succ_r by lia.
    pose proof (byte_val_range b).
    set (P := 256 ^ Z.of_nat (List.length tl)) in *. lia.
Qed.

Lemma le_decode_app (xs ys : list byte) :
  le_decode (xs ++ ys)
  = le_decode xs + 256 ^ Z.of_nat (List.length xs) * le_decode ys.
Proof.
  induction xs as [|x tl IH].
  - change (le_decode ([] ++ ys)) with (le_decode ys).
    change (256 ^ Z.of_nat (List.length (@nil byte))) with 1.
    change (le_decode []) with 0. lia.
  - change (le_decode ((x :: tl) ++ ys))
      with (byte_val x + 256 * le_decode (tl ++ ys)).
    change (le_decode (x :: tl)) with (byte_val x + 256 * le_decode tl).
    change (List.length (x :: tl)) with (S (List.length tl)).
    rewrite IH, Nat2Z.inj_succ, Z.pow_succ_r by lia. ring.
Qed.

Lemma le_decode_zeros (n : nat) : le_decode (repeat x00 n) = 0.
Proof.
  induction n as [|n IH]; simpl; [reflexivity|].
  rewrite IH. reflexivity.
Qed.

Lemma skipn_repeat {A} (x : A) (k n : nat) :
  skipn k (repeat x n) = repeat x (n - k).
Proof.
  revert k; induction n as [|n IH]; intros [|k]; simpl; auto.
Qed.

Lemma repeat_app_cons {A} (x : A) (n : nat) (l : list A) :
  repeat x n ++ x :: l = repeat x (S n) ++ l.
Proof.
  induction n as [|n IH]; cbn; [reflexivity|].
  cbn in IH. rewrite IH. reflexivity.
Qed.

Lemma last_cons_default {A} (a d : A) (l : list A) :
  last (a :: l) d = last l a.
Proof.
  revert a d. induction l as [|b l IH]; intros a d; [reflexivity|].
  change (last (a :: b :: l) d) with (last (b :: l) d).
  rewrite (IH b d), (IH b a). reflexivity.
Qed.

(** The zeroed high bytes of [c] do not contribute. *)
Lemma candidate_le_decode (bs : list byte) : candidate bs = le_decode bs.
Proof.
  unfold candidate, write_prefix.
  rewrite le_decode_app, skipn_repeat, le_decode_zeros. lia.
Qed.

Lemma candidate_nonneg (bs : list byte) : 0 <= candidate bs.
Proof.
  rewrite candidate_le_decode. apply le_decode_range.
Qed.

Lemma deliver_length (pool : nat -> byte) (n : Z) :
  List.length (deliver pool n) = Z.to_nat n.
Proof.
  unfold deliver. rewrite length_map, length_seq. reflexivity.
Qed.

Lemma deliver_pool_of (bs : list byte) :
  deliver (pool_of bs) (Z.of_nat (List.length bs)) = bs.
Proof.
  unfold deliver. rewrite Nat2Z.id.
  apply (nth_ext _ _ (pool_of bs 0%nat) x00).
  - rewrite length_map, length_seq. reflexivity.
  - intros n Hn. rewrite length_map, length_seq in Hn.
    rewrite map_nth, seq_nth by exact Hn. reflexivity.
Qed.

(** A buffer filled from end to end holds the delivered bytes only. *)
Lemma filled_buffer (bs buf : list byte) :
  List.length buf = List.length bs ->
  firstn (List.length bs) (write_prefix bs buf) = bs.
Proof.
  intros Hlen. unfold write_prefix.
  rewrite skipn_all2 by lia. rewrite app_nil_r. apply firstn_all.
Qed.

Lemma byte_val_of_Z (z : Z) : byte_val (byte_of_Z z) = z mod 256.
Proof.
  unfold byte_of_Z, byte_val.
  pose proof (Z.mod_pos_bound z 256 ltac:(lia)) as Hb.
  destruct (Byte.of_N (Z.to_N (z mod 256))) as [b|] eqn:E.
  - apply Byte.to_of_N in E. rewrite E. lia.
  - apply Byte.of_N_None_iff in E. lia.
Qed.

Lemma le_encode_length (n : nat) (v : Z) : List.length (le_encode n v) = n.
Proof.
  revert v; induction n as [|n IH]; intros v; cbn; [reflexivity|].
  now rewrite IH.
Qed.

Lemma le_decode_encode (n : nat) :
  forall v, 0 <= v < 256 ^ Z.of_nat n -> le_decode (le_encode n v) = v.
Proof.
  induction n as [|n IH]; intros v Hv.
  - change (256 ^ Z.of_nat 0) with 1 in Hv. cbn. lia.
  - rewrite Nat2Z.inj_succ, Z.pow_succ_r in Hv by lia.
    change (le_decode (le_encode (S n) v))
      with (byte_val (byte_of_Z v) + 256 * le_decode (le_encode n (v / 256))).
    rewrite byte_val_of_Z, IH.
    + pose proof (Z.div_mod v 256 ltac:(lia)). lia.
    + split; [apply Z.div_pos; lia|].
      apply Z.div_lt_upper_bound; lia.
Qed.

Lemma ceil_div8_bounds (x : Z) : x <= 8 * ceil_div8 x < x + 8.
Proof.
  unfold ceil_div8.
  pose proof (Z.div_mod (- x) 8 ltac:(lia)).
  pose proof (Z.mod_pos_bound (- x) 8 ltac:(lia)).
  lia.
Qed.

Lemma upperLimitBits_nonneg (r : Z) : 0 <= upperLimitBits r.
Proof. apply Z.log2_up_nonneg. Qed.

(** [2 ^ upperLimitBits r] is the power of two that reaches [r - 1] and
    stays below twice [r - 1]. *)
Lemma upperLimitBits_spec (r : Z) :
  2 < r ->
  2 ^ (upperLimitBits r - 1) < r - 1 <= 2 ^ upperLimitBits r.
Proof.
  intros Hr. unfold upperLimitBits, ceil_log2.
  pose proof (Z.log2_up_spec (r - 1) ltac:(lia)) as H.
  rewrite <- Z.sub_1_r in H. exact H.
Qed.

Lemma pow2_upperLimitBits_lt (r : Z) :
  1 < r -> 2 ^ upperLimitBits r < 2 * r.
Proof.
  intros Hr.
  destruct (Z.eq_dec r 2) as [->|Hne]; [vm_compute; reflexivity|].
  pose proof (upperLimitBits_spec r ltac:(lia)) as [Hlo Hhi].
  pose proof (upperLimitBits_nonneg r) as Hnn.
  assert (Hpos : 0 < upperLimitBits r).
  { destruct (Z.eq_dec (upperLimitBits r) 0) as [E|E]; [|lia].
    rewrite E in Hhi. simpl in Hhi. lia. }
  replace (upperLimitBits r) with (Z.succ (upperLimitBits r - 1)) by lia.
  rewrite Z.pow_succ_r by lia. lia.
Qed.

(** The bytes written at [&c] fit the four bytes of [c]: for every value
    the 32-bit [r] can hold past the guard. *)
Lemma t_fits_ulong (r : Z) :
  1 < r < ULONG_MOD ->
  0 <= t (upperLimitBits r) <= Z.of_nat sizeof_ulong.
Proof.
  intros Hr.
  pose proof (upperLimitBits_nonneg r) as Hnn.
  pose proof (ceil_div8_bounds (upperLimitBits r)) as Ht.
  fold (t (upperLimitBits r)) in Ht.
  assert (Hle : upperLimitBits r <= 32).
  { unfold upperLimitBits, ceil_log2.
    apply Z.log2_up_le_pow2; [lia|].
    change ULONG_MOD with (2 ^ 32) in Hr. lia. }
  change (Z.of_nat sizeof_ulong) with 4. lia.
Qed.

(** So the candidate is a value of the 32-bit [c]. *)
Lemma candidate_fits_ulong (r : Z) (pool : nat -> byte) :
  1 < r < ULONG_MOD ->
  0 <= candidate (deliver pool (t (upperLimitBits r))) < ULONG_MOD.
Proof.
  intros Hr. pose proof (t_fits_ulong r Hr) as Ht.
  rewrite candidate_le_decode.
  pose proof (le_decode_range (deliver pool (t (upperLimitBits r)))) as Hd.
  rewrite deliver_length, Z2Nat.id in Hd by lia.
  split; [lia|].
  apply Z.lt_le_trans with (1 := proj2 Hd).
  change ULONG_MOD with (256 ^ 4).
  apply Z.pow_le_mono_r; [lia|].
  change (Z.of_nat sizeof_ulong) with 4 in Ht. lia.
Qed.

(** A parsed [long] argument above 1 is stored in [r] unchanged. *)
Lemma parse_l_positive (max : Z) :
  1 < max -> forall r, PyArg_ParseTuple_l max = Some r -> r = max.
Proof.
  intros Hmax r. unfold PyArg_ParseTuple_l.
  destruct ((LONG_MIN <=? max) && (max <=? LONG_MAX)) eqn:E; [|discriminate].
  apply andb_prop in E as [_ Hhi]. apply Z.leb_le in Hhi.
  intros [= <-]. apply Z.mod_small.
  unfold LONG_MAX in Hhi. change ULONG_MOD with 4294967296. lia.
Qed.

Lemma parse_l_fits (max : Z) :
  0 <= max <= LONG_MAX -> PyArg_ParseTuple_l max = Some max.
Proof.
  intros Hmax. unfold PyArg_ParseTuple_l.
  replace (LONG_MIN <=? max) with true
    by (symmetry; apply Z.leb_le; unfold LONG_MIN; lia).
  replace (max <=? LONG_MAX) with true by (symmetry; apply Z.leb_le; lia).
  cbn [andb]. f_equal. apply Z.mod_small.
  unfold LONG_MAX in Hmax. change ULONG_MOD with 4294967296. lia.
Qed.

(** A negative [long] arrives in the unsigned [r] as a value of at least
    [2^31]. *)
Lemma parse_l_negative (max : Z) :
  LONG_MIN <= max < 0 -> PyArg_ParseTuple_l max = Some (max + ULONG_MOD).
Proof.
  intros [Hlo Hhi]. unfold PyArg_ParseTuple_l.
  replace (LONG_MIN <=? max) with true by (symmetry; now apply Z.leb_le).
  replace (max <=? LONG_MAX) with true
    by (symmetry; apply Z.leb_le; unfold LONG_MAX; lia).
  cbn [andb]. f_equal.
  unfold LONG_MIN in Hlo.
  change ULONG_MOD with 4294967296 in *.
  symmetry. apply (Z.mod_unique max 4294967296 (-1)); lia.
Qed.

(** [min_bits n] bits hold [n], and no fewer do. *)
Lemma min_bits_spec (n : Z) :
  0 <= n ->
  0 <= min_bits n /\ n < 2 ^ min_bits n /\
  forall k, 0 <= k -> n < 2 ^ k -> min_bits n <= k.
Proof.
  intros Hn. unfold min_bits. destruct (n <=? 0) eqn:E.
  - apply Z.leb_le in E. assert (n = 0) as -> by lia.
    repeat split; intros; lia.
  - apply Z.leb_gt in E.
    pose proof (Z.log2_nonneg n) as Hl.
    pose proof (Z.log2_spec n E) as [_ Hhi].
    rewrite <- Z.add_1_r in Hhi.
    repeat split; try lia.
    intros k Hk Hlt. apply Z.log2_lt_pow2 in Hlt; lia.
Qed.

(** Off the powers of two the computed width is the needed one. *)
Lemma upperLimitBits_off_powers_of_two (r : Z) :
  1 < r -> (forall k, 0 <= k -> r - 1 <> 2 ^ k) ->
  upperLimitBits r = min_bits (r - 1).
Proof.
  intros Hr Hnp. unfold upperLimitBits, ceil_log2, min_bits.
  destruct (r - 1 <=? 0) eqn:E; [apply Z.leb_le in E; lia|].
  destruct (Z.log2_log2_up_spec (r - 1) ltac:(lia)) as [Hlo Hhi].
  pose proof (Z.log2_nonneg (r - 1)) as Hl.
  pose proof (Z.le_log2_up_succ_log2 (r - 1)) as Hle.
  pose proof (Z.le_log2_log2_up (r - 1)) as Hge.
  destruct (Z.eq_dec (Z.log2_up (r - 1)) (Z.log2 (r - 1))) as [Heq|Hne];
    [|lia].
  exfalso. apply (Hnp (Z.log2 (r - 1)) Hl).
  rewrite Heq in Hhi. lia.
Qed.

(** * The rejection loop *)

Section Loop.

Variables bits tlen r : Z.

(** One successful draw, computed: the test is taken against the stored
    value, then the stored value is replaced and the candidate compared. *)
Lemma range_body_data (pool : nat -> byte) (s : State) :
  range_body bits tlen r (GenData pool) s
  = let c := candidate (deliver pool tlen) in
    if (15 <? bits) && (c =? iContinousRndTest s)
    then (Raise EntropyTestFailed, asked tlen s)
    else (Return (if c <? r then Break c else Continue),
          stored c (asked tlen s)).
Proof.
  unfold range_body, bind, CryptGenRandom, load_iContinousRndTest,
    store_iContinousRndTest, error_out, raise, ret.
  cbn [asked iContinousRndTest].
  destruct ((15 <? bits) && (candidate (deliver pool tlen) =? iContinousRndTest s));
    reflexivity.
Qed.

Lemma range_body_fail (s : State) :
  range_body bits tlen r GenFail s = (Raise GenerationFailed, asked tlen s).
Proof. reflexivity. Qed.

Lemma range_loop_cons (ev : GenEvent) (rest : list GenEvent) (s : State) :
  range_loop (ev :: rest) bits tlen r s
  = match range_body bits tlen r ev s with
    | (Return (Break c), s1) => (Return c, s1)
    | (Return Continue, s1) => range_loop rest bits tlen r s1
    | (Raise e, s1) => (Raise e, s1)
    | (Pending, s1) => (Pending, s1)
    | (Undefined, s1) => (Undefined, s1)
    end.
Proof.
  cbn [range_loop]. unfold bind.
  destruct (range_body bits tlen r ev s) as [[[c|]|e| |] s1]; reflexivity.
Qed.

(** A proof rule for the loop.  A property [P s out] of the state [s] at
    the loop's entry and of its outcome [out] holds of every run when it
    holds of the four ways a run ends (script exhausted, generation
    failure, self-test failure, accepted candidate) and is carried back
    over a rejected candidate. *)
Lemma range_loop_rule (P : State -> Outcome Z * State -> Prop) :
  (forall s, P s (Pending, s)) ->
  (forall s, P s (Raise GenerationFailed, asked tlen s)) ->
  (forall s, 15 < bits ->
             P s (Raise EntropyTestFailed, asked tlen s)) ->
  (forall s c, 0 <= c < r ->
               bits <= 15 \/ c <> iContinousRndTest s ->
               P s (Return c, stored c (asked tlen s))) ->
  (forall s c out, r <= c ->
                   bits <= 15 \/ c <> iContinousRndTest s ->
                   P (stored c (asked tlen s)) out -> P s out) ->
  forall (script : list GenEvent) (s : State),
    P s (range_loop script bits tlen r s).
Proof.
  intros Hpend Hgen Htest Hacc Hrej.
  induction script as [|ev rest IH]; intros s.
  - apply Hpend.
  - rewrite range_loop_cons. destruct ev as [|pool].
    + rewrite range_body_fail. apply Hgen.
    + rewrite range_body_data. cbv zeta.
      set (c := candidate (deliver pool tlen)).
      pose proof (candidate_nonneg (deliver pool tlen)) as Hc. fold c in Hc.
      destruct ((15 <? bits) && (c =? iContinousRndTest s)) eqn:E.
      * apply andb_prop in E as [E _]. apply Z.ltb_lt in E. now apply Htest.
      * assert (Hno : bits <= 15 \/ c <> iContinousRndTest s).
        { apply andb_false_iff in E as [E|E].
          - left. apply Z.ltb_ge in E. lia.
          - right. now apply Z.eqb_neq in E. }
        destruct (c <? r) eqn:Hlt.
        -- apply Z.ltb_lt in Hlt. apply Hacc; [lia|exact Hno].
        -- apply Z.ltb_ge in Hlt. apply (Hrej s c); [exact Hlt|exact Hno|].
           apply IH.
Qed.

(** What is known when the loop is left through [break]. *)
Lemma range_loop_Return (script : list GenEvent) (s s' : State) (c : Z) :
  range_loop script bits tlen r s = (Return c, s') ->
  0 <= c < r /\ iContinousRndTest s' = c.
Proof.
  revert s' c.
  apply (range_loop_rule
           (fun s out => forall s' c, out = (Return c, s') ->
                                      0 <= c < r /\ iContinousRndTest s' = c));
    try discriminate.
  - intros s0 c0 Hc0 _ s' c [= <- <-]. auto.
  - intros s0 c0 out _ _ IH s' c H. exact (IH s' c H).
Qed.

(** The loop fails in two ways only, and in the self-test only at widths
    above 15 bits. *)
Lemma range_loop_Raise (script : list GenEvent) (s s' : State) (e : PyErr) :
  range_loop script bits tlen r s = (Raise e, s') ->
  e = GenerationFailed \/ (e = EntropyTestFailed /\ 15 < bits).
Proof.
  revert s' e.
  apply (range_loop_rule
           (fun s out => forall s' e, out = (Raise e, s') ->
              e = GenerationFailed \/ (e = EntropyTestFailed /\ 15 < bits)));
    try discriminate.
  - intros s0 s' e [= <- _]. now left.
  - intros s0 Hb s' e [= <- _]. now right.
  - intros s0 c0 out _ _ IH s' e H. exact (IH s' e H).
Qed.

(** Every failure of the loop comes after at least one generator call. *)
Lemma range_loop_Raise_fetched
      (script : list GenEvent) (s s' : State) (e : PyErr) :
  range_loop script bits tlen r s = (Raise e, s') ->
  (List.length (fetched s) < List.length (fetched s'))%nat.
Proof.
  revert s' e.
  apply (range_loop_rule
           (fun s out => forall s' e, out = (Raise e, s') ->
              (List.length (fetched s) < List.length (fetched s'))%nat));
    try discriminate.
  - intros s0 s' e [= _ <-]. cbn. lia.
  - intros s0 _ s' e [= _ <-]. cbn. lia.
  - intros s0 c0 out _ _ IH s' e H. apply IH in H. cbn in H. lia.
Qed.

(** The loop neither opens nor closes a handle, however it ends. *)
Lemma range_loop_handles (script : list GenEvent) (s : State) :
  acquired (snd (range_loop script bits tlen r s)) = acquired s /\
  released (snd (range_loop script bits tlen r s)) = released s.
Proof.
  apply (range_loop_rule
           (fun s out => acquired (snd out) = acquired s /\
                         released (snd out) = released s));
    intros; cbn in *; auto.
Qed.

(** Progress: at a width below 16 bits, after any number of rejected
    candidates the first candidate below [r] is returned. *)
Lemma range_loop_accepts
      (pre : list GenEvent) (pool : nat -> byte) (rest : list GenEvent) :
  bits <= 15 ->
  Forall (fun ev => exists p, ev = GenData p /\
                              r <= candidate (deliver p tlen)) pre ->
  candidate (deliver pool tlen) < r ->
  forall s : State,
    fst (range_loop (pre ++ GenData pool :: rest) bits tlen r s)
    = Return (candidate (deliver pool tlen)).
Proof.
  intros Hb Hpre Hacc.
  assert (Hnotest : forall c s, (15 <? bits) && (c =? iContinousRndTest s) = false).
  { intros c s. replace (15 <? bits) with false; [reflexivity|].
    symmetry. apply Z.ltb_ge. lia. }
  induction Hpre as [|ev pre' (p & -> & Hrej) _ IH]; intros s;
    cbn [app]; rewrite range_loop_cons, range_body_data; cbv zeta;
    rewrite Hnotest.
  - replace (candidate (deliver pool tlen) <? r) with true
      by (symmetry; apply Z.ltb_lt; exact Hacc).
    reflexivity.
  - replace (candidate (deliver p tlen) <? r) with false
      by (symmetry; apply Z.ltb_ge; exact Hrej).
    apply IH.
Qed.

End Loop.

(** With no bytes to fetch the candidate is 0, and the first turn of the
    loop returns it. *)
Lemma range_loop_no_bytes (pool : nat -> byte) (rest : list GenEvent)
      (r : Z) (s : State) :
  0 < r ->
  range_loop (GenData pool :: rest) 0 0 r s = (Return 0, stored 0 (asked 0 s)).
Proof.
  intros Hr. rewrite range_loop_cons, range_body_data. cbv zeta.
  change (candidate (deliver pool 0)) with 0.
  change (15 <? 0) with false. cbn [andb].
  destruct (0 <? r) eqn:E; [reflexivity|].
  apply Z.ltb_ge in E. lia.
Qed.

(** * The three calls, unfolded *)

Lemma acquire_provider_cases (env : Env) (s : State) :
  acquire_provider env s
  = if aes_ok env || full_ok env
    then (Return tt, opened s)
    else (Raise SourceUnavailable, s).
Proof.
  unfold acquire_provider, bind, CryptAcquireContext.
  destruct (aes_ok env), (full_ok env); reflexivity.
Qed.

(** A [range] call whose argument parsed to [r > 1]. *)
Lemma winrandom_range_parsed (env : Env) (arg r : Z) (s : State) :
  PyArg_ParseTuple_l arg = Some r -> 1 < r ->
  winrandom_range env arg s
  = if aes_ok env || full_ok env
    then match range_loop (gen env) (upperLimitBits r)
                          (t (upperLimitBits r)) r (opened s) with
         | (Return c, s1) => (Return c, closed s1)
         | (Raise e, s1) => (Raise e, s1)
         | (Pending, s1) => (Pending, s1)
         | (Undefined, s1) => (Undefined, s1)
         end
    else (Raise SourceUnavailable, s).
Proof.
  intros Hp Hr. unfold winrandom_range. rewrite Hp.
  destruct (r <=? 1) eqn:E; [apply Z.leb_le in E; lia|].
  unfold bind at 1. rewrite acquire_provider_cases.
  destruct (aes_ok env || full_ok env); [|reflexivity].
  unfold bind, CryptReleaseContext, ret.
  destruct (range_loop _ _ _ _ _) as [[c|e| |] s1]; reflexivity.
Qed.

(** A [range] call that does not reach the loop. *)
Lemma winrandom_range_refused (env : Env) (arg : Z) (s : State) :
  (forall r, PyArg_ParseTuple_l arg = Some r -> r <= 1) ->
  exists e, winrandom_range env arg s = (Raise e, s).
Proof.
  intros H. unfold winrandom_range.
  destruct (PyArg_ParseTuple_l arg) as [r|]; [|eexists; reflexivity].
  specialize (H r eq_refl). apply Z.leb_le in H. rewrite H.
  eexists; reflexivity.
Qed.

Lemma winrandom_long_cases (env : Env) (s : State) :
  winrandom_long env s
  = if aes_ok env || full_ok env
    then match gen env with
         | [] => (Pending, opened s)
         | GenFail :: _ =>
             (Raise GenerationFailed,
              asked (Z.of_nat sizeof_ulong) (opened s))
         | GenData pool :: _ =>
             (Return (le_decode (deliver pool (Z.of_nat sizeof_ulong))),
              asked (Z.of_nat sizeof_ulong) (opened s))
         end
    else (Raise SourceUnavailable, s).
Proof.
  unfold winrandom_long. unfold bind at 1. rewrite acquire_provider_cases.
  destruct (aes_ok env || full_ok env); [|reflexivity].
  unfold next_event. destruct (gen env) as [|[|pool] rest]; reflexivity.
Qed.

(** [Py_BuildValue] leaves the CryptoAPI state alone. *)
Lemma Py_BuildValue_y_state (answer : BuildAnswer) (buf : list byte) (n : Z)
      (s : State) :
  snd (Py_BuildValue_y answer buf n s) = s.
Proof.
  unfold Py_BuildValue_y. destruct answer; try reflexivity.
  cbv zeta. destruct (as_int n <? 0); [|reflexivity].
  destruct (strlen buf); reflexivity.
Qed.

(** What it can leave behind: a bytes object, one of its two exceptions,
    or a read outside the buffer. *)
Lemma Py_BuildValue_y_outcomes (answer : BuildAnswer) (buf : list byte) (n : Z)
      (s : State) :
  (exists bs, fst (Py_BuildValue_y answer buf n s) = Return bs) \/
  (answer = BuildRefused /\
   fst (Py_BuildValue_y answer buf n s) = Raise FormatRefused) \/
  (answer = BuildNoMemory /\
   fst (Py_BuildValue_y answer buf n s) = Raise NoMemory) \/
  fst (Py_BuildValue_y answer buf n s) = Undefined.
Proof.
  unfold Py_BuildValue_y. destruct answer.
  - cbv zeta. destruct (as_int n <? 0).
    + destruct (strlen buf); [left; eexists; reflexivity|].
      right. right. right. reflexivity.
    + left. eexists. reflexivity.
  - right. left. split; reflexivity.
  - right. right. left. split; reflexivity.
Qed.


Lemma write_prefix_full (bs buf : list byte) :
  List.length buf = List.length bs -> write_prefix bs buf = bs.
Proof.
  intros Hlen. unfold write_prefix.
  rewrite skipn_all2 by lia. apply app_nil_r.
Qed.

Lemma winrandom_bytes_cases (env : Env) (arg : Z) (s : State) :
  winrandom_bytes env arg s
  = let num_bytes := arg mod UINT_MOD in
    if malloc_ok env
    then if aes_ok env || full_ok env
         then match gen env with
              | [] => (Pending, opened s)
              | GenFail :: _ =>
                  (Raise GenerationFailed, asked num_bytes (opened s))
              | GenData pool :: _ =>
                  Py_BuildValue_y (build env) (deliver pool num_bytes)
                                  num_bytes (asked num_bytes (opened s))
              end
         else (Raise SourceUnavailable, s)
    else (Raise AllocationFailed, s).
Proof.
  unfold winrandom_bytes, PyArg_ParseTuple_I, malloc. cbv zeta.
  destruct (malloc_ok env); [|reflexivity].
  unfold bind at 1, ret. unfold bind at 1. rewrite acquire_provider_cases.
  destruct (aes_ok env || full_ok env); [|reflexivity].
  unfold next_event. destruct (gen env) as [|[|pool] rest]; try reflexivity.
  unfold bind, ret, CryptGenRandom.
  rewrite write_prefix_full; [reflexivity|].
  rewrite repeat_length, deliver_length. reflexivity.
Qed.

(** * The range sampler *)

(** C1. For every [max > 1], a value returned by [range(max)] lies in
    [0 <= c < max]: the rejection loop is left only through the test
    [c < r]. *)
Theorem range_result_below_max (env : Env) (max : Z) (s s' : State) (c : Z) :
  1 < max ->
  winrandom_range env max s = (Return c, s') ->
  0 <= c < max.
Proof.
  intros Hmax H.
  destruct (PyArg_ParseTuple_l max) as [r|] eqn:Hp.
  - pose proof (parse_l_positive max Hmax r Hp) as ->.
    rewrite (winrandom_range_parsed env max max s Hp Hmax) in H.
    destruct (aes_ok env || full_ok env); [|discriminate].
    destruct (range_loop _ _ _ _ _) as [[c1|e| |] s1] eqn:Hloop; try discriminate.
    injection H as <- _.
    apply range_loop_Return in Hloop. tauto.
  - unfold winrandom_range in H. rewrite Hp in H. discriminate.
Qed.

(** A run of [range(200)]: the first byte drawn, 255, is discarded and the
    second, 7, is returned. *)
Lemma range_result_below_max_witness :
  1 < 200 /\
  winrandom_range (healthy [GenData (pool_of [xff]); GenData (pool_of [x07])])
                  200 initial_state
  = (Return 7, mkState 7 1 1 [1; 1]) /\
  0 <= 7 < 200.
Proof.
  split; [lia|]. split; [reflexivity|].
  apply (range_result_below_max
           (healthy [GenData (pool_of [xff]); GenData (pool_of [x07])])
           200 initial_state (mkState 7 1 1 [1; 1]) 7);
    [lia | reflexivity].
Defined.

(** Progress of the call: with a provider at hand and a width below 16
    bits, [range(max)] returns the first candidate below [max] that the
    generator delivers after any number of rejected ones. *)
Lemma winrandom_range_returns
      (env : Env) (max : Z) (pre rest : list GenEvent) (pool : nat -> byte)
      (s : State) :
  1 < max <= LONG_MAX ->
  upperLimitBits max <= 15 ->
  aes_ok env || full_ok env = true ->
  gen env = pre ++ GenData pool :: rest ->
  Forall (fun ev => exists p, ev = GenData p /\
            max <= candidate (deliver p (t (upperLimitBits max)))) pre ->
  candidate (deliver pool (t (upperLimitBits max))) < max ->
  fst (winrandom_range env max s)
  = Return (candidate (deliver pool (t (upperLimitBits max)))).
Proof.
  intros Hmax Hbits Hacq Hgen Hpre Hacc.
  rewrite (winrandom_range_parsed env max max s
             (parse_l_fits max ltac:(lia)) ltac:(lia)).
  rewrite Hacq, Hgen.
  pose proof (range_loop_accepts _ _ _ pre pool rest Hbits Hpre Hacc (opened s))
    as Hloop.
  destruct (range_loop _ _ _ _ _) as [[c|e| |] s1]; cbn in *; congruence.
Qed.

(** ** C3: the guard on the argument *)

(** The arguments 0 and 1 are refused before anything else happens. *)
Lemma range_rejects_0_and_1 (env : Env) (max : Z) (s : State) :
  0 <= max <= 1 -> winrandom_range env max s = (Raise InvalidArgument, s).
Proof.
  intros H. assert (max = 0 \/ max = 1) as [-> | ->] by lia; reflexivity.
Qed.

(** A negative argument is not: it reaches the provider and the loop. *)
Lemma range_negative_passes_guard (env : Env) (max : Z) (s : State) :
  LONG_MIN <= max < 0 ->
  fst (winrandom_range env max s) <> Raise InvalidArgument.
Proof.
  intros H.
  assert (Hr : 1 < max + ULONG_MOD).
  { unfold LONG_MIN in H. change ULONG_MOD with 4294967296. lia. }
  rewrite (winrandom_range_parsed env max _ s (parse_l_negative max H) Hr).
  destruct (aes_ok env || full_ok env); [|discriminate].
  destruct (range_loop _ _ _ _ _) as [[c|e| |] s1] eqn:Hloop; try discriminate.
  apply range_loop_Raise in Hloop as [-> | [-> _]]; discriminate.
Qed.

(** C3, on the code: the arguments 0 and 1 raise the invalid-argument
    error, but [-5] is stored in the unsigned [r] as 4294967291, passes the
    guard [r <= 1], and the call goes on to draw four bytes and return a
    value. *)
Theorem range_minus_5_not_rejected :
  (forall (env : Env) (s : State),
      winrandom_range env 0 s = (Raise InvalidArgument, s) /\
      winrandom_range env 1 s = (Raise InvalidArgument, s)) /\
  PyArg_ParseTuple_l (-5) = Some 4294967291 /\
  (forall (env : Env) (s : State),
      fst (winrandom_range env (-5) s) <> Raise InvalidArgument) /\
  winrandom_range (healthy [GenData (pool_of [x2a])]) (-5) initial_state
  = (Return 42, mkState 42 1 1 [4]).
Proof.
  split; [|split; [|split]].
  - intros env s. split; apply range_rejects_0_and_1; lia.
  - reflexivity.
  - intros env s. apply range_negative_passes_guard. unfold LONG_MIN. lia.
  - reflexivity.
Qed.

(** ** C4: the width in bits *)

(** C4, on the code: at [max = 2] and [max = 3] the computed width is 0
    and 1, while the largest value below [max] (1 and 2) needs 1 and 2
    bits; the computed width cannot hold it. *)
Theorem upperLimitBits_short_at_2_and_3 :
  upperLimitBits 2 = 0 /\ min_bits (2 - 1) = 1 /\
  ~ (2 - 1 < 2 ^ upperLimitBits 2) /\
  upperLimitBits 3 = 1 /\ min_bits (3 - 1) = 2 /\
  ~ (3 - 1 < 2 ^ upperLimitBits 3).
Proof.
  repeat split; try reflexivity; vm_compute; discriminate.
Qed.

(** ** C5: the size of the candidate space *)

(** The bytes fetched for [max = 100] span 256 candidates, more than
    [2 * 100]. *)
Lemma byte_space_exceeds_twice_max :
  ~ (2 ^ (8 * t (upperLimitBits 100)) < 2 * 100).
Proof. vm_compute. discriminate. Qed.

(** C5, amended. For every [max > 1] the width in bits satisfies
    [2 ^ bits_needed < 2 * max]; the whole bytes that are fetched satisfy
    [2 ^ (8 * bytes_needed) < 256 * max], and [< 2 * max] when
    [bits_needed] is a multiple of 8. *)
Theorem candidate_space_bound (r : Z) :
  1 < r ->
  2 ^ upperLimitBits r < 2 * r /\
  2 ^ (8 * t (upperLimitBits r)) < 256 * r /\
  (upperLimitBits r mod 8 = 0 -> 2 ^ (8 * t (upperLimitBits r)) < 2 * r).
Proof.
  intros Hr.
  pose proof (pow2_upperLimitBits_lt r Hr) as Hbits.
  pose proof (upperLimitBits_nonneg r) as Hnn.
  pose proof (ceil_div8_bounds (upperLimitBits r)) as Ht.
  fold (t (upperLimitBits r)) in Ht.
  split; [exact Hbits|]. split.
  - assert (Hle : 2 ^ (8 * t (upperLimitBits r)) <= 2 ^ (upperLimitBits r + 7))
      by (apply Z.pow_le_mono_r; lia).
    rewrite Z.pow_add_r in Hle by lia.
    change (2 ^ 7) with 128 in Hle. lia.
  - intros Hmod.
    assert (8 * t (upperLimitBits r) = upperLimitBits r) as ->; [|exact Hbits].
    pose proof (Z.div_mod (upperLimitBits r) 8 ltac:(lia)) as Hdm.
    rewrite Hmod in Hdm. lia.
Qed.

Lemma candidate_space_bound_witness :
  1 < 100 /\
  2 ^ upperLimitBits 100 < 2 * 100 /\
  2 ^ (8 * t (upperLimitBits 100)) < 256 * 100 /\
  (upperLimitBits 100 mod 8 = 0 -> 2 ^ (8 * t (upperLimitBits 100)) < 2 * 100).
Proof.
  split; [lia|]. apply (candidate_space_bound 100). lia.
Defined.

(** ** C10: [range(2)] *)

(** C10. For [max = 2] the sampler computes a width of 0 bits and 0 bytes,
    asks the generator for zero bytes and returns 0 from the first turn of
    the loop; whatever the generator would have delivered, two runs that
    return a value return the same one, 0. *)
Theorem range_2_returns_0 :
  upperLimitBits 2 = 0 /\ t (upperLimitBits 2) = 0 /\
  (forall (env : Env) (s : State) (pool : nat -> byte) (rest : list GenEvent),
      aes_ok env || full_ok env = true ->
      gen env = GenData pool :: rest ->
      winrandom_range env 2 s
      = (Return 0,
         mkState 0 (S (acquired s)) (S (released s)) (0 :: fetched s))) /\
  (forall (env1 env2 : Env) (s1 s2 s1' s2' : State) (c1 c2 : Z),
      winrandom_range env1 2 s1 = (Return c1, s1') ->
      winrandom_range env2 2 s2 = (Return c2, s2') ->
      c1 = 0 /\ c2 = 0 /\ c1 = c2).
Proof.
  assert (Hone : forall env s s' c,
             winrandom_range env 2 s = (Return c, s') -> c = 0).
  { intros env s s' c H.
    rewrite (winrandom_range_parsed env 2 2 s eq_refl ltac:(lia)) in H.
    destruct (aes_ok env || full_ok env); [|discriminate].
    change (upperLimitBits 2) with 0 in H. change (t 0) with 0 in H.
    destruct (gen env) as [|[|pool] rest].
    - discriminate.
    - rewrite range_loop_cons, range_body_fail in H. discriminate.
    - rewrite range_loop_no_bytes in H by lia. now injection H as <- _. }
  split; [reflexivity|]. split; [reflexivity|]. split.
  - intros env s pool rest Hacq Hgen.
    rewrite (winrandom_range_parsed env 2 2 s eq_refl ltac:(lia)).
    rewrite Hacq, Hgen.
    change (upperLimitBits 2) with 0. change (t 0) with 0.
    rewrite range_loop_no_bytes by lia. reflexivity.
  - intros env1 env2 s1 s2 s1' s2' c1 c2 H1 H2.
    apply Hone in H1. apply Hone in H2. subst. auto.
Qed.

(** Two runs of [range(2)] against generators whose outputs differ. *)
Lemma range_2_returns_0_witness :
  winrandom_range (healthy [GenData (pool_of [xff; xff])]) 2 initial_state
  = (Return 0, mkState 0 1 1 [0]) /\
  winrandom_range (healthy [GenData (pool_of [x01; x80])]) 2 initial_state
  = (Return 0, mkState 0 1 1 [0]).
Proof.
  destruct range_2_returns_0 as (_ & _ & Hrun & _).
  split.
  - apply (Hrun (healthy [GenData (pool_of [xff; xff])]) initial_state
                (pool_of [xff; xff]) []); reflexivity.
  - apply (Hrun (healthy [GenData (pool_of [x01; x80])]) initial_state
                (pool_of [x01; x80]) []); reflexivity.
Defined.

(** * The continuous self-test *)

(** A returning [range] call leaves its result in the test state. *)
Lemma winrandom_range_Return (env : Env) (arg : Z) (s s' : State) (c : Z) :
  winrandom_range env arg s = (Return c, s') -> iContinousRndTest s' = c.
Proof.
  intros H.
  destruct (PyArg_ParseTuple_l arg) as [r|] eqn:Hp.
  - destruct (Z_le_gt_dec r 1) as [Hle|Hgt].
    + destruct (winrandom_range_refused env arg s) as [e He].
      { intros r' Hr'. congruence. }
      congruence.
    + rewrite (winrandom_range_parsed env arg r s Hp ltac:(lia)) in H.
      destruct (aes_ok env || full_ok env); [|discriminate].
      destruct (range_loop _ _ _ _ _) as [[c1|e| |] s1] eqn:Hloop;
        try discriminate.
      injection H as <- <-.
      apply range_loop_Return in Hloop as [_ Hc]. exact Hc.
  - unfold winrandom_range in H. rewrite Hp in H. discriminate.
Qed.

(** The self-test failing at the draw after [pools]: every earlier
    candidate was discarded without a repeat, and this one repeats the
    last. *)
Lemma range_loop_trips (bits tlen r : Z) (pool : nat -> byte)
      (rest : list GenEvent) :
  15 < bits ->
  forall (pools : list (nat -> byte)) (s : State),
    Forall (fun p => r <= candidate (deliver p tlen)) pools ->
    repeats (iContinousRndTest s)
            (map (fun p => candidate (deliver p tlen)) pools) = false ->
    candidate (deliver pool tlen)
    = last (map (fun p => candidate (deliver p tlen)) pools)
           (iContinousRndTest s) ->
    range_loop (map GenData pools ++ GenData pool :: rest) bits tlen r s
    = (Raise EntropyTestFailed,
       mkState (candidate (deliver pool tlen)) (acquired s) (released s)
               (repeat tlen (S (List.length pools)) ++ fetched s)).
Proof.
  intros Hb. assert (Hb' : (15 <? bits) = true) by now apply Z.ltb_lt.
  induction pools as [|p pools IH]; intros s Hrej Hfresh Hsame.
  - cbn [map app last] in *. rewrite range_loop_cons, range_body_data.
    cbv zeta. rewrite Hb', Hsame, Z.eqb_refl. reflexivity.
  - inversion Hrej as [|? ? Hp Hrest]; subst.
    cbn [map] in Hfresh, Hsame. cbn [repeats] in Hfresh.
    apply orb_false_iff in Hfresh as [Hnew Hfresh].
    rewrite last_cons_default in Hsame.
    cbn [map app]. rewrite range_loop_cons, range_body_data. cbv zeta.
    rewrite Hnew, andb_false_r.
    replace (candidate (deliver p tlen) <? r) with false
      by (symmetry; now apply Z.ltb_ge).
    rewrite IH; [|exact Hrest|exact Hfresh|exact Hsame].
    cbn [stored asked acquired released fetched List.length].
    rewrite repeat_app_cons. reflexivity.
Qed.

(** Conversely, a self-test failure of the loop comes from such a draw. *)
Lemma range_loop_trip_inv (bits tlen r : Z) (script : list GenEvent) :
  forall s s' : State,
    range_loop script bits tlen r s = (Raise EntropyTestFailed, s') ->
    15 < bits /\
    exists (pools : list (nat -> byte)) (pool : nat -> byte)
           (rest : list GenEvent),
      script = map GenData pools ++ GenData pool :: rest /\
      Forall (fun p => r <= candidate (deliver p tlen)) pools /\
      repeats (iContinousRndTest s)
              (map (fun p => candidate (deliver p tlen)) pools) = false /\
      candidate (deliver pool tlen)
      = last (map (fun p => candidate (deliver p tlen)) pools)
             (iContinousRndTest s).
Proof.
  induction script as [|ev rest IH]; intros s s' H; [discriminate|].
  rewrite range_loop_cons in H. destruct ev as [|p].
  - rewrite range_body_fail in H. discriminate.
  - rewrite range_body_data in H. cbv zeta in H.
    destruct ((15 <? bits) && (candidate (deliver p tlen) =? iContinousRndTest s))
      eqn:E.
    + apply andb_prop in E as [Hb Hc].
      apply Z.ltb_lt in Hb. apply Z.eqb_eq in Hc.
      split; [exact Hb|]. exists [], p, rest.
      repeat split; [constructor | exact Hc].
    + destruct (candidate (deliver p tlen) <? r) eqn:Hlt; [discriminate|].
      apply Z.ltb_ge in Hlt.
      apply IH in H as (Hb & pools & pool & rest' & -> & Hrej & Hfresh & Hsame).
      cbn [stored asked iContinousRndTest] in Hfresh, Hsame.
      split; [exact Hb|]. exists (p :: pools), pool, rest'.
      split; [reflexivity|]. split; [now constructor|].
      apply andb_false_iff in E as [E|E];
        [apply Z.ltb_ge in E; lia|].
      split.
      * cbn [map repeats]. rewrite E, Hfresh. reflexivity.
      * cbn [map]. rewrite last_cons_default. exact Hsame.
Qed.

(** After candidates that were all discarded the static holds the last of
    them, and the loop asks for more. *)
Lemma range_loop_all_discarded (bits tlen r : Z) :
  forall (pools : list (nat -> byte)) (s : State),
    Forall (fun p => r <= candidate (deliver p tlen)) pools ->
    bits <= 15 \/
    repeats (iContinousRndTest s)
            (map (fun p => candidate (deliver p tlen)) pools) = false ->
    range_loop (map GenData pools) bits tlen r s
    = (Pending,
       mkState (last (map (fun p => candidate (deliver p tlen)) pools)
                     (iContinousRndTest s))
               (acquired s) (released s)
               (repeat tlen (List.length pools) ++ fetched s)).
Proof.
  induction pools as [|p pools IH]; intros s Hrej Hfresh.
  - destruct s; reflexivity.
  - inversion Hrej as [|? ? Hp Hrest]; subst.
    cbn [map]. rewrite range_loop_cons, range_body_data. cbv zeta.
    assert (Hno : (15 <? bits)
                  && (candidate (deliver p tlen) =? iContinousRndTest s)
                  = false).
    { destruct Hfresh as [Hb|Hr].
      - replace (15 <? bits) with false; [reflexivity|].
        symmetry. apply Z.ltb_ge. lia.
      - cbn in Hr. apply orb_false_iff in Hr as [Hr _].
        rewrite Hr. apply andb_false_r. }
    rewrite Hno.
    replace (candidate (deliver p tlen) <? r) with false
      by (symmetry; now apply Z.ltb_ge).
    rewrite IH; [|exact Hrest|].
    + cbn [stored asked iContinousRndTest acquired released fetched List.length].
      rewrite repeat_app_cons, last_cons_default. reflexivity.
    + destruct Hfresh as [Hb|Hr]; [now left|right].
      cbn in Hr. apply orb_false_iff in Hr as [_ Hr]. exact Hr.
Qed.

(** C6. A [range(max)] call with a provider at hand fails with the
    self-test error exactly when its width is at least 16 bits and, after
    candidates that were discarded without a repeat, it draws a candidate
    equal to the one stored before it (the last discarded one, or the value
    the static held at entry); the static then holds that candidate.  A
    call whose width is below 16 bits never fails with the self-test
    error.  The stored value is the drawn candidate after every draw: in
    one turn of the loop whether or not the test fails, after a run of
    discarded candidates, and after the call returned. *)
Theorem continuous_test_trips_exactly :
  (forall (bits tlen r : Z) (pool : nat -> byte) (s : State),
      let c := candidate (deliver pool tlen) in
      (fst (range_body bits tlen r (GenData pool) s) = Raise EntropyTestFailed
       <-> 16 <= bits /\ c = iContinousRndTest s) /\
      iContinousRndTest (snd (range_body bits tlen r (GenData pool) s)) = c) /\
  (forall (env : Env) (max r : Z) (s : State),
      PyArg_ParseTuple_l max = Some r ->
      upperLimitBits r < 16 ->
      fst (winrandom_range env max s) <> Raise EntropyTestFailed) /\
  (forall (env : Env) (max r : Z) (s : State),
      PyArg_ParseTuple_l max = Some r -> 1 < r ->
      aes_ok env || full_ok env = true ->
      let cand := fun p => candidate (deliver p (t (upperLimitBits r))) in
      (fst (winrandom_range env max s) = Raise EntropyTestFailed
       <-> 16 <= upperLimitBits r /\
           exists (pools : list (nat -> byte)) (pool : nat -> byte)
                  (rest : list GenEvent),
             gen env = map GenData pools ++ GenData pool :: rest /\
             Forall (fun p => r <= cand p) pools /\
             repeats (iContinousRndTest s) (map cand pools) = false /\
             cand pool = last (map cand pools) (iContinousRndTest s)) /\
      (forall (pools : list (nat -> byte)) (pool : nat -> byte)
              (rest : list GenEvent),
          16 <= upperLimitBits r ->
          gen env = map GenData pools ++ GenData pool :: rest ->
          Forall (fun p => r <= cand p) pools ->
          repeats (iContinousRndTest s) (map cand pools) = false ->
          cand pool = last (map cand pools) (iContinousRndTest s) ->
          winrandom_range env max s
          = (Raise EntropyTestFailed,
             mkState (cand pool) (S (acquired s)) (released s)
                     (repeat (t (upperLimitBits r)) (S (List.length pools))
                      ++ fetched s))) /\
      (forall pools : list (nat -> byte),
          gen env = map GenData pools ->
          Forall (fun p => r <= cand p) pools ->
          upperLimitBits r <= 15 \/
          repeats (iContinousRndTest s) (map cand pools) = false ->
          winrandom_range env max s
          = (Pending,
             mkState (last (map cand pools) (iContinousRndTest s))
                     (S (acquired s)) (released s)
                     (repeat (t (upperLimitBits r)) (List.length pools)
                      ++ fetched s)))) /\
  (forall (env : Env) (max : Z) (s s' : State) (c : Z),
      winrandom_range env max s = (Return c, s') ->
      iContinousRndTest s' = c).
Proof.
  split; [|split; [|split]].
  - intros bits tlen r pool s c. rewrite range_body_data. cbv zeta. fold c.
    destruct ((15 <? bits) && (c =? iContinousRndTest s)) eqn:E.
    + apply andb_prop in E as [Hb Hc].
      apply Z.ltb_lt in Hb. apply Z.eqb_eq in Hc.
      cbn. split; [|auto]. split; [intros _; split; [lia|exact Hc]|reflexivity].
    + cbn. split; [|reflexivity]. split; [discriminate|].
      intros [Hb Hc]. apply andb_false_iff in E as [E|E].
      * apply Z.ltb_ge in E. lia.
      * apply Z.eqb_neq in E. contradiction.
  - intros env max r s Hp Hbits.
    destruct (Z_le_gt_dec r 1) as [Hle|Hgt].
    + unfold winrandom_range. rewrite Hp.
      apply Z.leb_le in Hle. rewrite Hle. discriminate.
    + rewrite (winrandom_range_parsed env max r s Hp ltac:(lia)).
      destruct (aes_ok env || full_ok env); [|discriminate].
      destruct (range_loop _ _ _ _ _) as [[c|e| |] s1] eqn:Hloop;
        try discriminate.
      apply range_loop_Raise in Hloop as [-> | [_ Hb]]; [discriminate|lia].
  - intros env max r s Hp Hr Hacq cand.
    rewrite (winrandom_range_parsed env max r s Hp Hr), Hacq.
    split; [|split].
    + split.
      * destruct (range_loop _ _ _ _ _) as [[c|e| |] s1] eqn:Hloop;
          cbn [fst]; intros H; try discriminate.
        injection H as ->.
        apply range_loop_trip_inv in Hloop as (Hb & pools & pool & rest & H).
        split; [lia|]. exists pools, pool, rest. exact H.
      * intros (Hb & pools & pool & rest & Hgen & Hrej & Hfresh & Hsame).
        rewrite Hgen.
        rewrite (range_loop_trips (upperLimitBits r) (t (upperLimitBits r)) r
                   pool rest ltac:(lia) pools (opened s)
                   Hrej Hfresh Hsame).
        reflexivity.
    + intros pools pool rest Hb Hgen Hrej Hfresh Hsame. rewrite Hgen.
      rewrite (range_loop_trips (upperLimitBits r) (t (upperLimitBits r)) r
                   pool rest ltac:(lia) pools (opened s)
                 Hrej Hfresh Hsame).
      reflexivity.
    + intros pools Hgen Hrej Hfresh. rewrite Hgen.
      rewrite (range_loop_all_discarded _ _ _ pools (opened s) Hrej Hfresh).
      reflexivity.
  - intros env max s s' c H. exact (winrandom_range_Return env max s s' c H).
Qed.

(** An 8-bit call drawing the stored value again does not fail.  A 17-bit
    call that discards ffffff and draws it again fails, with ffffff
    stored. *)
Lemma continuous_test_trips_exactly_witness :
  fst (winrandom_range (healthy [GenData (pool_of [x07])]) 200
                       (mkState 7 0 0 []))
  <> Raise EntropyTestFailed /\
  winrandom_range
    (healthy [GenData (pool_of [xff; xff; xff]);
              GenData (pool_of [xff; xff; xff; x01])])
    100000 initial_state
  = (Raise EntropyTestFailed, mkState 16777215 1 0 [3; 3]) /\
  fst (winrandom_range
         (healthy [GenData (pool_of [xff; xff; xff]);
                   GenData (pool_of [xff; xff; xff; x01])])
         100000 initial_state)
  = Raise EntropyTestFailed.
Proof.
  destruct continuous_test_trips_exactly as (_ & Hbelow & Hcall & _).
  destruct (Hcall (healthy [GenData (pool_of [xff; xff; xff]);
                            GenData (pool_of [xff; xff; xff; x01])])
                  100000 100000 initial_state eq_refl ltac:(lia) eq_refl)
    as (Hiff & Hstate & _).
  split; [|split].
  - apply (Hbelow (healthy [GenData (pool_of [x07])]) 200 200 (mkState 7 0 0 []));
      [reflexivity | vm_compute; reflexivity].
  - apply (Hstate [pool_of [xff; xff; xff]] (pool_of [xff; xff; xff; x01]) []).
    + vm_compute. discriminate.
    + reflexivity.
    + repeat constructor. vm_compute. discriminate.
    + vm_compute. reflexivity.
    + vm_compute. reflexivity.
  - apply Hiff. split; [vm_compute; discriminate|].
    exists [pool_of [xff; xff; xff]], (pool_of [xff; xff; xff; x01]), [].
    split; [reflexivity|]. split; [repeat constructor; vm_compute; discriminate|].
    split; vm_compute; reflexivity.
Defined.

(** X7. The value a returning [range] call leaves in the static trips the
    test of the next call of at least 16 bits whose first candidate repeats
    it: the self-test reaches across calls. *)
Lemma range_repeat_across_calls (env1 env2 : Env) (max1 max2 : Z)
      (s s1 : State) (c : Z) (pool : nat -> byte) (rest : list GenEvent) :
  winrandom_range env1 max1 s = (Return c, s1) ->
  1 < max2 <= LONG_MAX -> 16 <= upperLimitBits max2 ->
  aes_ok env2 || full_ok env2 = true ->
  gen env2 = GenData pool :: rest ->
  candidate (deliver pool (t (upperLimitBits max2))) = c ->
  fst (winrandom_range env2 max2 s1) = Raise EntropyTestFailed.
Proof.
  intros H1 Hmax Hbits Hacq Hgen Hc.
  apply winrandom_range_Return in H1.
  pose proof (parse_l_fits max2 ltac:(lia)) as Hp.
  rewrite (winrandom_range_parsed env2 max2 max2 s1 Hp ltac:(lia)).
  rewrite Hacq, Hgen, range_loop_cons, range_body_data. cbv zeta.
  cbn [opened iContinousRndTest].
  rewrite Hc, H1, Z.eqb_refl.
  replace (15 <? upperLimitBits max2) with true
    by (symmetry; apply Z.ltb_lt; lia).
  reflexivity.
Qed.

(** The first candidate of a process is 0 at a width of 17 bits: the call
    fails with the self-test error. *)
Lemma first_candidate_zero_trips :
  winrandom_range (healthy [GenData (pool_of [x00; x00; x00])])
                  100000 initial_state
  = (Raise EntropyTestFailed, mkState 0 1 0 [3]).
Proof. reflexivity. Qed.

(** C7, amended. The test state starts as 0, which is also a value a
    candidate can take.  The first candidate drawn by [range] in a process
    trips the self-test exactly when the width is at least 16 bits and that
    candidate is 0; a first candidate other than 0 never trips it. *)
Theorem first_candidate_trips_iff_zero
        (env : Env) (max : Z) (pool : nat -> byte) (rest : list GenEvent) :
  1 < max <= LONG_MAX ->
  aes_ok env || full_ok env = true ->
  gen env = GenData pool :: rest ->
  iContinousRndTest initial_state = 0 /\
  ((fst (winrandom_range env max initial_state) = Raise EntropyTestFailed /\
    List.length (fetched (snd (winrandom_range env max initial_state))) = 1%nat)
   <-> 16 <= upperLimitBits max /\
       candidate (deliver pool (t (upperLimitBits max))) = 0).
Proof.
  intros Hmax Hacq Hgen. split; [reflexivity|].
  rewrite (winrandom_range_parsed env max max initial_state
             (parse_l_fits max ltac:(lia)) ltac:(lia)).
  rewrite Hacq, Hgen, range_loop_cons, range_body_data. cbv zeta.
  cbn [opened initial_state iContinousRndTest].
  set (bits := upperLimitBits max).
  set (c := candidate (deliver pool (t bits))).
  destruct ((15 <? bits) && (c =? 0)) eqn:E.
  - apply andb_prop in E as [Hb Hc].
    apply Z.ltb_lt in Hb. apply Z.eqb_eq in Hc. cbn.
    split; [intros _; split; [lia|exact Hc]|auto].
  - assert (Hno : ~ (16 <= bits /\ c = 0)).
    { intros [Hb Hc]. apply andb_false_iff in E as [E|E].
      - apply Z.ltb_ge in E. lia.
      - apply Z.eqb_neq in E. contradiction. }
    split; [|intros H; contradiction].
    intros [Hfail Hlen]. exfalso.
    destruct (c <? max).
    + cbn in Hfail. discriminate.
    + destruct (range_loop rest bits (t bits) max _) as [[c1|e| |] s1] eqn:Hloop.
      * cbn in Hfail. discriminate.
      * apply range_loop_Raise_fetched in Hloop.
        cbn in Hloop, Hlen. lia.
      * cbn in Hfail. discriminate.
      * cbn in Hfail. discriminate.
Qed.

Lemma first_candidate_trips_iff_zero_witness :
  fst (winrandom_range (healthy [GenData (pool_of [x00; x00; x00])])
                       100000 initial_state)
  = Raise EntropyTestFailed /\
  List.length
    (fetched (snd (winrandom_range (healthy [GenData (pool_of [x00; x00; x00])])
                                   100000 initial_state))) = 1%nat.
Proof.
  apply (first_candidate_trips_iff_zero
           (healthy [GenData (pool_of [x00; x00; x00])]) 100000
           (pool_of [x00; x00; x00]) []).
  - unfold LONG_MAX. lia.
  - reflexivity.
  - reflexivity.
  - split; [vm_compute; discriminate | reflexivity].
Defined.

(** * The fixed-width and byte-buffer fetches *)

(** ** C8: [bytes(n)] *)




(** ** C9: [long()] *)

(** C9. [long()] has no argument besides its environment; once a provider
    is acquired it asks the generator for exactly [sizeof(unsigned long)]
    bytes, and when they are delivered it returns their value as an
    unsigned integer, which lies in [0 <= v < 2^32]; every value of that
    range is returned for some generator output. *)
Theorem long_returns_full_width :
  (forall (env : Env) (pool : nat -> byte) (rest : list GenEvent) (s : State),
      aes_ok env || full_ok env = true ->
      gen env = GenData pool :: rest ->
      let bs := deliver pool (Z.of_nat sizeof_ulong) in
      winrandom_long env s
      = (Return (le_decode bs), asked (Z.of_nat sizeof_ulong) (opened s)) /\
      List.length bs = sizeof_ulong /\
      0 <= le_decode bs < ULONG_MOD) /\
  (forall v : Z,
      0 <= v < ULONG_MOD ->
      forall (env : Env) (rest : list GenEvent) (s : State),
        aes_ok env || full_ok env = true ->
        gen env = GenData (pool_of (le_encode sizeof_ulong v)) :: rest ->
        fst (winrandom_long env s) = Return v).
Proof.
  split.
  - intros env pool rest s Hacq Hgen bs.
    rewrite winrandom_long_cases, Hacq, Hgen. fold bs.
    assert (Hlen : List.length bs = sizeof_ulong)
      by (unfold bs; rewrite deliver_length; apply Nat2Z.id).
    split; [reflexivity|]. split; [exact Hlen|].
    pose proof (le_decode_range bs) as Hr. rewrite Hlen in Hr. exact Hr.
  - intros v Hv env rest s Hacq Hgen.
    rewrite winrandom_long_cases, Hacq, Hgen. cbn [fst]. f_equal.
    rewrite <- (le_encode_length sizeof_ulong v) at 2.
    rewrite deliver_pool_of. apply le_decode_encode. exact Hv.
Qed.

(** The generator delivers the bytes 78 56 34 12 and [long()] returns
    0x12345678; the value 0xFFFFFFFF is returned as well. *)
Lemma long_returns_full_width_witness :
  winrandom_long (healthy [GenData (pool_of [x78; x56; x34; x12])])
                 initial_state
  = (Return 305419896, mkState 0 1 0 [4]) /\
  fst (winrandom_long
         (healthy [GenData (pool_of (le_encode sizeof_ulong 4294967295))])
         initial_state)
  = Return 4294967295.
Proof.
  destruct long_returns_full_width as [Hrun Hall]. split.
  - apply (Hrun (healthy [GenData (pool_of [x78; x56; x34; x12])])
                (pool_of [x78; x56; x34; x12]) [] initial_state);
      reflexivity.
  - apply (Hall 4294967295 ltac:(vm_compute; split; [discriminate|reflexivity])
                (healthy [GenData (pool_of (le_encode sizeof_ulong 4294967295))])
                [] initial_state); reflexivity.
Defined.

(** * The handle *)

(** The one [CryptReleaseContext] of the file is reached by [range] when it
    returns a value, and on no other path. *)
Lemma winrandom_range_released (env : Env) (arg : Z) (s : State) :
  released (snd (winrandom_range env arg s))
  = match fst (winrandom_range env arg s) with
    | Return _ => S (released s)
    | _ => released s
    end.
Proof.
  destruct (PyArg_ParseTuple_l arg) as [r|] eqn:Hp.
  - destruct (Z_le_gt_dec r 1) as [Hle|Hgt].
    + destruct (winrandom_range_refused env arg s) as [e ->];
        [intros r' Hr'; congruence | reflexivity].
    + rewrite (winrandom_range_parsed env arg r s Hp ltac:(lia)).
      destruct (aes_ok env || full_ok env); [|reflexivity].
      pose proof (range_loop_handles (upperLimitBits r) (t (upperLimitBits r))
                    r (gen env) (opened s)) as [_ Hr].
      destruct (range_loop _ _ _ _ _) as [[c|e| |] s1]; cbn in *; lia.
  - unfold winrandom_range. rewrite Hp. reflexivity.
Qed.

(** C2, on the code: [long()] and [bytes(n)] never release a handle, and
    [range(max)] releases one only when it returns a value.  A [long()] or
    [bytes(n)] call that succeeds, and a [range(max)] call that fails in
    generation or in the self-test, each end with one handle acquired and
    none released. *)
Theorem handle_not_released :
  (forall (env : Env) (s : State),
      released (snd (winrandom_long env s)) = released s) /\
  (forall (env : Env) (n : Z) (s : State),
      released (snd (winrandom_bytes env n s)) = released s) /\
  (forall (env : Env) (max : Z) (s : State) (e : PyErr),
      fst (winrandom_range env max s) = Raise e ->
      released (snd (winrandom_range env max s)) = released s) /\
  winrandom_long (healthy [GenData (pool_of [x78; x56; x34; x12])])
                 initial_state
  = (Return 305419896, mkState 0 1 0 [4]) /\
  winrandom_bytes (healthy [GenData (pool_of [x01; x02])]) 2 initial_state
  = (Return [x01; x02], mkState 0 1 0 [2]) /\
  winrandom_range (healthy [GenFail]) 200 initial_state
  = (Raise GenerationFailed, mkState 0 1 0 [1]) /\
  winrandom_range (healthy [GenData (pool_of [x00; x00; x00])])
                  100000 initial_state
  = (Raise EntropyTestFailed, mkState 0 1 0 [3]).
Proof.
  split; [|split; [|split]].
  - intros env s. rewrite winrandom_long_cases.
    destruct (aes_ok env || full_ok env); [|reflexivity].
    destruct (gen env) as [|[|pool] rest]; reflexivity.
  - intros env n s. rewrite winrandom_bytes_cases. cbv zeta.
    destruct (malloc_ok env); [|reflexivity].
    destruct (aes_ok env || full_ok env); [|reflexivity].
    destruct (gen env) as [|[|pool] rest]; try reflexivity.
    rewrite Py_BuildValue_y_state. reflexivity.
  - intros env max s e H. rewrite winrandom_range_released, H. reflexivity.
  - repeat split.
Qed.

(** * Further properties of the three calls *)

(** ** Argument checks of [range] *)

Lemma parse_l_range (arg r : Z) :
  PyArg_ParseTuple_l arg = Some r -> 0 <= r < ULONG_MOD.
Proof.
  unfold PyArg_ParseTuple_l.
  destruct ((LONG_MIN <=? arg) && (arg <=? LONG_MAX)); [|discriminate].
  intros [= <-]. apply Z.mod_pos_bound. reflexivity.
Qed.

Lemma parse_l_None (arg : Z) :
  PyArg_ParseTuple_l arg = None <-> arg < LONG_MIN \/ LONG_MAX < arg.
Proof.
  unfold PyArg_ParseTuple_l.
  destruct (LONG_MIN <=? arg) eqn:Hlo; destruct (arg <=? LONG_MAX) eqn:Hhi;
    cbn [andb];
    try apply Z.leb_le in Hlo; try apply Z.leb_gt in Hlo;
    try apply Z.leb_le in Hhi; try apply Z.leb_gt in Hhi;
    split; intros H; try discriminate; try reflexivity; lia.
Qed.

(** Past the guard, the exceptions of a [range] call are the three of the
    CryptoAPI part. *)
Lemma winrandom_range_past_guard (env : Env) (arg r : Z) (s : State) (e : PyErr) :
  PyArg_ParseTuple_l arg = Some r -> 1 < r ->
  fst (winrandom_range env arg s) = Raise e ->
  (e = SourceUnavailable /\ aes_ok env || full_ok env = false) \/
  (aes_ok env || full_ok env = true /\
   (e = GenerationFailed \/ e = EntropyTestFailed /\ 15 < upperLimitBits r)).
Proof.
  intros Hp Hr. rewrite (winrandom_range_parsed env arg r s Hp Hr).
  destruct (aes_ok env || full_ok env).
  - destruct (range_loop _ _ _ _ _) as [[c|e1| |] s1] eqn:Hloop;
      cbn [fst]; intros H; try discriminate.
    injection H as ->. right. split; [reflexivity|].
    apply range_loop_Raise in Hloop. tauto.
  - cbn [fst]. intros [= <-]. left. auto.
Qed.

(** An argument that does not fit a [long] ends the call at once. *)
Lemma range_unparsed (env : Env) (max : Z) (s : State) :
  max < LONG_MIN \/ LONG_MAX < max ->
  winrandom_range env max s = (Raise ParseError, s).
Proof.
  intros H. apply parse_l_None in H.
  unfold winrandom_range. rewrite H. reflexivity.
Qed.

(** Every other argument but 0 and 1 reaches the provider. *)
Lemma range_reaches_provider (env : Env) (max : Z) (s : State) (e : PyErr) :
  LONG_MIN <= max <= LONG_MAX -> ~ 0 <= max <= 1 ->
  fst (winrandom_range env max s) = Raise e ->
  e <> ParseError /\ e <> InvalidArgument.
Proof.
  intros Hfit Hnot H.
  assert (Hpr : exists r, PyArg_ParseTuple_l max = Some r /\ 1 < r).
  { destruct (Z_lt_ge_dec max 0) as [Hneg|Hpos].
    - exists (max + ULONG_MOD). split; [apply parse_l_negative; lia|].
      unfold LONG_MIN in Hfit. change ULONG_MOD with 4294967296. lia.
    - exists max. split; [apply parse_l_fits; lia | lia]. }
  destruct Hpr as (r & Hp & Hr).
  destruct (winrandom_range_past_guard env max r s e Hp Hr H)
    as [[-> _]|[_ [->|[-> _]]]]; split; discriminate.
Qed.

(** X1. [range(max)] sorts its argument before it touches the CryptoAPI:
    it raises the parse error exactly when [max] does not fit a C [long],
    and the [rand_max] error exactly when [max] is 0 or 1; in both cases
    no provider was asked and no byte drawn.  Every other integer,
    the negative ones included, goes on to the provider. *)
Theorem range_argument_classes (env : Env) (max : Z) (s : State) :
  (fst (winrandom_range env max s) = Raise ParseError
   <-> max < LONG_MIN \/ LONG_MAX < max) /\
  (fst (winrandom_range env max s) = Raise InvalidArgument
   <-> 0 <= max <= 1) /\
  (max < LONG_MIN \/ LONG_MAX < max \/ 0 <= max <= 1 ->
   snd (winrandom_range env max s) = s).
Proof.
  assert (Hbounds : LONG_MIN < 0 /\ 1 < LONG_MAX) by (vm_compute; auto).
  destruct (Z_lt_ge_dec max LONG_MIN) as [Hlo|Hlo];
    [|destruct (Z_lt_ge_dec LONG_MAX max) as [Hhi|Hhi]].
  - rewrite (range_unparsed env max s (or_introl Hlo)). cbn [fst snd].
    split; [tauto|]. split; [|reflexivity].
    split; [discriminate | lia].
  - rewrite (range_unparsed env max s (or_intror Hhi)). cbn [fst snd].
    split; [tauto|]. split; [|reflexivity].
    split; [discriminate | lia].
  - destruct (Z_le_gt_dec 0 max) as [H0|H0];
      [destruct (Z_le_gt_dec max 1) as [H1|H1]|].
    + rewrite (range_rejects_0_and_1 env max s (conj H0 H1)). cbn [fst snd].
      split; [|split; [tauto|reflexivity]].
      split; [discriminate | lia].
    + split; [|split]; [split | split | ]; intros H; try lia.
      * apply range_reaches_provider in H; [|lia|lia]. tauto.
      * apply range_reaches_provider in H; [|lia|lia]. tauto.
    + split; [|split]; [split | split | ]; intros H; try lia.
      * apply range_reaches_provider in H; [|lia|lia]. tauto.
      * apply range_reaches_provider in H; [|lia|lia]. tauto.
Qed.

(** [range(2147483648)] does not parse, [range(1)] is refused, and neither
    call changes the state. *)
Lemma range_argument_classes_witness :
  fst (winrandom_range (healthy []) 2147483648 initial_state) = Raise ParseError /\
  fst (winrandom_range (healthy []) 1 initial_state) = Raise InvalidArgument /\
  snd (winrandom_range (healthy []) 1 initial_state) = initial_state.
Proof.
  destruct (range_argument_classes (healthy []) 2147483648 initial_state)
    as (Hparse & _ & _).
  destruct (range_argument_classes (healthy []) 1 initial_state)
    as (_ & Hone & Hsame).
  split; [apply Hparse; right; vm_compute; reflexivity|].
  split; [apply Hone; lia | apply Hsame; right; right; lia].
Defined.

(** X2. Past its argument checks a [range] call raises nothing but the
    three CryptoAPI errors: the provider error exactly when neither
    provider can be acquired, and then with the state untouched; the
    generation and self-test errors only with a provider acquired, the
    self-test error only at a width above 15 bits. *)
Theorem range_failure_modes (env : Env) (arg r : Z) (s : State) :
  PyArg_ParseTuple_l arg = Some r -> 1 < r ->
  (forall e, fst (winrandom_range env arg s) = Raise e ->
             e = SourceUnavailable \/ e = GenerationFailed \/
             e = EntropyTestFailed /\ 15 < upperLimitBits r) /\
  (fst (winrandom_range env arg s) = Raise SourceUnavailable
   <-> aes_ok env || full_ok env = false) /\
  (aes_ok env || full_ok env = false -> snd (winrandom_range env arg s) = s).
Proof.
  intros Hp Hr. split; [|split].
  - intros e H.
    destruct (winrandom_range_past_guard env arg r s e Hp Hr H)
      as [[E _]|[_ [E|E]]]; auto.
  - split.
    + intros H.
      destruct (winrandom_range_past_guard env arg r s _ Hp Hr H)
        as [[_ E]|[_ [E|[E _]]]]; [exact E|discriminate|discriminate].
    + intros H. rewrite (winrandom_range_parsed env arg r s Hp Hr), H.
      reflexivity.
  - intros H. rewrite (winrandom_range_parsed env arg r s Hp Hr), H.
    reflexivity.
Qed.

Lemma range_failure_modes_witness :
  fst (winrandom_range (mkEnv false false true []) 200 initial_state)
  = Raise SourceUnavailable /\
  snd (winrandom_range (mkEnv false false true []) 200 initial_state)
  = initial_state.
Proof.
  destruct (range_failure_modes (mkEnv false false true []) 200 200
              initial_state eq_refl ltac:(lia)) as (_ & Hiff & Hsame).
  split; [apply Hiff; reflexivity | apply Hsame; reflexivity].
Defined.

(** ** Handles and generator requests *)

(** X3. A call opens at most one handle, through the first provider that
    answers: [long()] opens exactly one when a provider exists, [bytes(n)]
    when moreover [malloc] succeeded, [range(max)] when moreover the
    argument passed its checks, however many turns the loop then takes
    and however the call ends; otherwise none is opened. *)
Theorem one_handle_per_call (env : Env) (s : State) :
  acquired (snd (winrandom_long env s))
  = (if aes_ok env || full_ok env then S (acquired s) else acquired s) /\
  (forall n : Z,
      acquired (snd (winrandom_bytes env n s))
      = if malloc_ok env && (aes_ok env || full_ok env)
        then S (acquired s) else acquired s) /\
  (forall arg r : Z,
      PyArg_ParseTuple_l arg = Some r -> 1 < r ->
      acquired (snd (winrandom_range env arg s))
      = if aes_ok env || full_ok env then S (acquired s) else acquired s) /\
  (forall arg : Z,
      (forall r, PyArg_ParseTuple_l arg = Some r -> r <= 1) ->
      acquired (snd (winrandom_range env arg s)) = acquired s).
Proof.
  split; [|split; [|split]].
  - rewrite winrandom_long_cases.
    destruct (aes_ok env || full_ok env); [|reflexivity].
    destruct (gen env) as [|[|pool] rest]; reflexivity.
  - intros n. rewrite winrandom_bytes_cases. cbv zeta.
    destruct (malloc_ok env); [|reflexivity].
    destruct (aes_ok env || full_ok env); [|reflexivity].
    destruct (gen env) as [|[|pool] rest]; try reflexivity.
    rewrite Py_BuildValue_y_state. reflexivity.
  - intros arg r Hp Hr. rewrite (winrandom_range_parsed env arg r s Hp Hr).
    destruct (aes_ok env || full_ok env); [|reflexivity].
    pose proof (range_loop_handles (upperLimitBits r) (t (upperLimitBits r))
                  r (gen env) (opened s)) as [Ha _].
    destruct (range_loop _ _ _ _ _) as [[c|e| |] s1]; cbn in *; exact Ha.
  - intros arg H.
    destruct (winrandom_range_refused env arg s H) as [e ->]. reflexivity.
Qed.

(** [range(200)] with the first provider missing: three candidates drawn,
    one handle opened. *)
Lemma one_handle_per_call_witness :
  acquired
    (snd (winrandom_range
            (mkEnv false true true
                   [GenData (pool_of [xff]); GenData (pool_of [xfe]);
                    GenData (pool_of [x07])])
            200 initial_state)) = 1%nat.
Proof.
  destruct (one_handle_per_call
              (mkEnv false true true
                     [GenData (pool_of [xff]); GenData (pool_of [xfe]);
                      GenData (pool_of [x07])])
              initial_state) as (_ & _ & Hrange & _).
  apply (Hrange 200 200); [reflexivity | lia].
Defined.


Lemma range_loop_fetched (bits tlen r : Z) (script : list GenEvent) (s : State) :
  exists k : nat,
    (k <= List.length script)%nat /\
    fetched (snd (range_loop script bits tlen r s))
    = repeat tlen k ++ fetched s.
Proof.
  revert s. induction script as [|ev rest IH]; intros s.
  - exists 0%nat. split; [reflexivity|reflexivity].
  - rewrite range_loop_cons. destruct ev as [|pool].
    + rewrite range_body_fail. exists 1%nat. split; [cbn; lia|reflexivity].
    + rewrite range_body_data. cbv zeta.
      destruct ((15 <? bits) && _).
      * exists 1%nat. split; [cbn; lia|reflexivity].
      * destruct (candidate (deliver pool tlen) <? r).
        -- exists 1%nat. split; [cbn; lia|reflexivity].
        -- destruct (IH (stored (candidate (deliver pool tlen)) (asked tlen s)))
             as (k & Hk & Hf).
           exists (S k). split; [cbn; lia|].
           rewrite Hf. cbn [stored asked fetched]. apply repeat_app_cons.
Qed.

(** X4. All generator requests of one [range] call are for the same
    number of bytes, [t = ceil(upperLimitBits / 8)], computed once before
    the loop; there are no more requests than the generator answered. *)
Theorem range_requests_t_bytes (env : Env) (arg r : Z) (s : State) :
  PyArg_ParseTuple_l arg = Some r -> 1 < r ->
  exists k : nat,
    (k <= List.length (gen env))%nat /\
    fetched (snd (winrandom_range env arg s))
    = repeat (t (upperLimitBits r)) k ++ fetched s.
Proof.
  intros Hp Hr. rewrite (winrandom_range_parsed env arg r s Hp Hr).
  destruct (aes_ok env || full_ok env).
  - destruct (range_loop_fetched (upperLimitBits r) (t (upperLimitBits r)) r
                (gen env) (opened s)) as (k & Hk & Hf).
    exists k. split; [exact Hk|].
    destruct (range_loop _ _ _ _ _) as [[c|e| |] s1]; cbn in *; exact Hf.
  - exists 0%nat. split; [lia|reflexivity].
Qed.

Lemma range_requests_t_bytes_witness :
  exists k : nat,
    (k <= 3)%nat /\
    fetched
      (snd (winrandom_range
              (healthy [GenData (pool_of [xff; xff; xff]);
                        GenData (pool_of [x01; x02; x03]);
                        GenData (pool_of [x09])])
              100000 initial_state))
    = repeat 3 k ++ [].
Proof.
  apply (range_requests_t_bytes
           (healthy [GenData (pool_of [xff; xff; xff]);
                     GenData (pool_of [x01; x02; x03]);
                     GenData (pool_of [x09])])
           100000 100000 initial_state); [reflexivity | lia].
Defined.

(** ** The candidate *)

(** X5. For every value of [r] that passes the guard, wrapped negative
    arguments included, the [t] bytes that [CryptGenRandom] writes at [&c]
    number between 0 and 4: the write stays inside the [unsigned long],
    and the candidate is a 32-bit value. *)
Theorem range_write_fits_c (arg r : Z) (pool : nat -> byte) :
  PyArg_ParseTuple_l arg = Some r -> 1 < r ->
  0 <= t (upperLimitBits r) <= Z.of_nat sizeof_ulong /\
  (List.length (deliver pool (t (upperLimitBits r))) <= sizeof_ulong)%nat /\
  0 <= candidate (deliver pool (t (upperLimitBits r))) < ULONG_MOD.
Proof.
  intros Hp Hr. pose proof (parse_l_range arg r Hp) as Hrange.
  pose proof (t_fits_ulong r ltac:(lia)) as Ht.
  split; [exact Ht|]. split.
  - rewrite deliver_length. lia.
  - apply candidate_fits_ulong. lia.
Qed.

(** The widest case: [-1] is stored as [2^32 - 1] and four bytes are
    fetched. *)
Lemma range_write_fits_c_witness :
  0 <= t (upperLimitBits 4294967295) <= 4 /\
  (List.length (deliver (pool_of [xff; xff; xff; xff; xff])
                        (t (upperLimitBits 4294967295))) <= 4)%nat /\
  0 <= candidate (deliver (pool_of [xff; xff; xff; xff; xff])
                          (t (upperLimitBits 4294967295))) < ULONG_MOD.
Proof.
  apply (range_write_fits_c (-1) 4294967295 (pool_of [xff; xff; xff; xff; xff]));
    [reflexivity | lia].
Defined.

Lemma range_loop_Return_candidate (bits tlen r : Z) (script : list GenEvent) :
  forall (s s' : State) (c : Z),
    range_loop script bits tlen r s = (Return c, s') ->
    exists pool, In (GenData pool) script /\ c = candidate (deliver pool tlen).
Proof.
  induction script as [|ev rest IH]; intros s s' c H.
  - discriminate.
  - rewrite range_loop_cons in H. destruct ev as [|pool].
    + rewrite range_body_fail in H. discriminate.
    + rewrite range_body_data in H. cbv zeta in H.
      destruct ((15 <? bits) && _); [discriminate|].
      destruct (candidate (deliver pool tlen) <? r).
      * injection H as <- _. exists pool. split; [now left|reflexivity].
      * apply IH in H as (p & Hin & Hc). exists p. split; [now right|exact Hc].
Qed.

(** X6. A value returned by [range(max)] is the value of the [t] bytes of
    one generator answer, so it is below [256 ^ t].  With the width
    computed from [max - 1], [range(257)] and [range(65537)] fetch 1 and 2
    bytes and never return their largest value, 256 and 65536. *)
Theorem range_result_below_byte_space
        (env : Env) (max : Z) (s s' : State) (c : Z) :
  1 < max ->
  winrandom_range env max s = (Return c, s') ->
  (exists pool, In (GenData pool) (gen env) /\
                c = le_decode (deliver pool (t (upperLimitBits max)))) /\
  c < 256 ^ t (upperLimitBits max) /\
  (max = 257 \/ max = 65537 -> c < max - 1).
Proof.
  intros Hmax H.
  assert (Hp : PyArg_ParseTuple_l max = Some max).
  { destruct (PyArg_ParseTuple_l max) as [r|] eqn:Hp.
    - now rewrite (parse_l_positive max Hmax r Hp).
    - unfold winrandom_range in H. rewrite Hp in H. discriminate. }
  rewrite (winrandom_range_parsed env max max s Hp Hmax) in H.
  destruct (aes_ok env || full_ok env); [|discriminate].
  destruct (range_loop _ _ _ _ _) as [[c1|e| |] s1] eqn:Hloop; try discriminate.
  injection H as <- _.
  apply range_loop_Return_candidate in Hloop as (pool & Hin & ->).
  rewrite candidate_le_decode.
  assert (Hlt : le_decode (deliver pool (t (upperLimitBits max)))
                < 256 ^ t (upperLimitBits max)).
  { pose proof (le_decode_range (deliver pool (t (upperLimitBits max)))) as Hd.
    pose proof (t_fits_ulong max ltac:(pose proof (parse_l_range _ _ Hp); lia))
      as Ht.
    rewrite deliver_length, Z2Nat.id in Hd by lia. lia. }
  split; [exists pool; auto|]. split; [exact Hlt|].
  intros [-> | ->]; vm_compute in Hlt; exact Hlt.
Qed.

(** [range(257)] given the byte ff returns 255, its largest result. *)
Lemma range_result_below_byte_space_witness :
  winrandom_range (healthy [GenData (pool_of [xff; x01])]) 257 initial_state
  = (Return 255, mkState 255 1 1 [1]) /\
  255 < 257 - 1.
Proof.
  split; [reflexivity|].
  apply (range_result_below_byte_space
           (healthy [GenData (pool_of [xff; x01])]) 257 initial_state
           (mkState 255 1 1 [1]) 255); [lia | reflexivity | left; reflexivity].
Defined.

(** ** The self-test along several draws *)

(** [range(2)] leaves 0 in the static; a following [range(100000)] whose
    first three bytes are zero fails. *)
Lemma range_repeat_across_calls_witness :
  winrandom_range (healthy [GenData (pool_of [xff])]) 2 (mkState 9 0 0 [])
  = (Return 0, mkState 0 1 1 [0]) /\
  fst (winrandom_range (healthy [GenData (pool_of [x00; x00; x00; x05])])
                       100000 (mkState 0 1 1 [0]))
  = Raise EntropyTestFailed.
Proof.
  split; [reflexivity|].
  apply (range_repeat_across_calls
           (healthy [GenData (pool_of [xff])])
           (healthy [GenData (pool_of [x00; x00; x00; x05])])
           2 100000 (mkState 9 0 0 []) (mkState 0 1 1 [0]) 0
           (pool_of [x00; x00; x00; x05]) []);
    try reflexivity.
  - unfold LONG_MAX. lia.
  - vm_compute. discriminate.
Defined.

(** X8. Inside one call of at least 16 bits, a candidate that was
    discarded for being too large and is drawn again on the next turn
    fails the call with the self-test error: the discarded value was
    stored before it was compared with [r]. *)
Theorem range_repeat_within_call
        (env : Env) (max : Z) (pool1 pool2 : nat -> byte)
        (rest : list GenEvent) (s : State) :
  1 < max <= LONG_MAX -> 16 <= upperLimitBits max ->
  aes_ok env || full_ok env = true ->
  gen env = GenData pool1 :: GenData pool2 :: rest ->
  candidate (deliver pool1 (t (upperLimitBits max))) <> iContinousRndTest s ->
  max <= candidate (deliver pool1 (t (upperLimitBits max))) ->
  candidate (deliver pool2 (t (upperLimitBits max)))
  = candidate (deliver pool1 (t (upperLimitBits max))) ->
  winrandom_range env max s
  = (Raise EntropyTestFailed,
     mkState (candidate (deliver pool1 (t (upperLimitBits max))))
             (S (acquired s)) (released s)
             (t (upperLimitBits max) :: t (upperLimitBits max) :: fetched s)).
Proof.
  intros Hmax Hbits Hacq Hgen Hnew Hrej Hsame.
  rewrite (winrandom_range_parsed env max max s
             (parse_l_fits max ltac:(lia)) ltac:(lia)).
  rewrite Hacq, Hgen.
  set (bits := upperLimitBits max) in *.
  set (c1 := candidate (deliver pool1 (t bits))) in *.
  assert (Hb : (15 <? bits) = true) by (apply Z.ltb_lt; lia).
  rewrite range_loop_cons, range_body_data. cbv zeta. fold c1.
  cbn [opened iContinousRndTest].
  replace (c1 =? iContinousRndTest s) with false
    by (symmetry; now apply Z.eqb_neq).
  rewrite andb_false_r.
  replace (c1 <? max) with false by (symmetry; apply Z.ltb_ge; exact Hrej).
  rewrite range_loop_cons, range_body_data. cbv zeta.
  rewrite Hsame. fold c1. cbn [stored asked iContinousRndTest].
  rewrite Hb, Z.eqb_refl. reflexivity.
Qed.

Lemma range_repeat_within_call_witness :
  winrandom_range
    (healthy [GenData (pool_of [xff; xff; xff]);
              GenData (pool_of [xff; xff; xff; x01])])
    100000 initial_state
  = (Raise EntropyTestFailed, mkState 16777215 1 0 [3; 3]).
Proof.
  apply (range_repeat_within_call
           (healthy [GenData (pool_of [xff; xff; xff]);
                     GenData (pool_of [xff; xff; xff; x01])])
           100000 (pool_of [xff; xff; xff]) (pool_of [xff; xff; xff; x01])
           [] initial_state); try reflexivity.
  - unfold LONG_MAX. lia.
  - vm_compute. discriminate.
  - vm_compute. discriminate.
  - vm_compute. discriminate.
Defined.

(** X9. The self-test belongs to [range] alone: [long()] and [bytes(n)]
    neither read nor write the stored candidate and never fail with the
    self-test error, so a generator that keeps delivering the same bytes
    goes unnoticed by them. *)
Theorem long_and_bytes_skip_self_test (env : Env) (s : State) :
  iContinousRndTest (snd (winrandom_long env s)) = iContinousRndTest s /\
  fst (winrandom_long env s) <> Raise EntropyTestFailed /\
  (forall n : Z,
      iContinousRndTest (snd (winrandom_bytes env n s)) = iContinousRndTest s /\
      fst (winrandom_bytes env n s) <> Raise EntropyTestFailed) /\
  (forall (pool : nat -> byte) (rest : list GenEvent),
      aes_ok env || full_ok env = true ->
      gen env = GenData pool :: rest ->
      fst (winrandom_long env (snd (winrandom_long env s)))
      = fst (winrandom_long env s) /\
      exists v, fst (winrandom_long env s) = Return v).
Proof.
  split; [|split; [|split]].
  - rewrite winrandom_long_cases.
    destruct (aes_ok env || full_ok env); [|reflexivity].
    destruct (gen env) as [|[|pool] rest]; reflexivity.
  - rewrite winrandom_long_cases.
    destruct (aes_ok env || full_ok env); [|discriminate].
    destruct (gen env) as [|[|pool] rest]; discriminate.
  - intros n. rewrite winrandom_bytes_cases. cbv zeta.
    destruct (malloc_ok env); [|split; [reflexivity|discriminate]].
    destruct (aes_ok env || full_ok env); [|split; [reflexivity|discriminate]].
    destruct (gen env) as [|[|pool] rest];
      try (split; [reflexivity|discriminate]).
    rewrite Py_BuildValue_y_state. split; [reflexivity|].
    destruct (Py_BuildValue_y_outcomes (build env)
                (deliver pool (n mod UINT_MOD)) (n mod UINT_MOD)
                (asked (n mod UINT_MOD) (opened s)))
      as [[bs ->]|[[_ ->]|[[_ ->]| ->]]]; discriminate.
  - intros pool rest Hacq Hgen.
    rewrite !winrandom_long_cases, Hacq, Hgen. cbn [fst].
    split; [reflexivity|eexists; reflexivity].
Qed.

(** Two [long()] calls in a row, both given the bytes 78 56 34 12, both
    return 0x12345678. *)
Lemma long_and_bytes_skip_self_test_witness :
  fst (winrandom_long
         (healthy [GenData (pool_of [x78; x56; x34; x12])])
         (snd (winrandom_long
                 (healthy [GenData (pool_of [x78; x56; x34; x12])])
                 initial_state)))
  = Return 305419896.
Proof.
  destruct (long_and_bytes_skip_self_test
              (healthy [GenData (pool_of [x78; x56; x34; x12])]) initial_state)
    as (_ & _ & _ & Htwice).
  destruct (Htwice (pool_of [x78; x56; x34; x12]) [] eq_refl eq_refl)
    as [Heq _].
  rewrite Heq. reflexivity.
Defined.

(** ** Progress of the loop *)

Lemma range_loop_discards (bits tlen r : Z) (pool : nat -> byte)
      (rest : list GenEvent) :
  candidate (deliver pool tlen) < r ->
  forall (pools : list (nat -> byte)) (s : State),
    Forall (fun p => r <= candidate (deliver p tlen)) pools ->
    bits <= 15 \/
    repeats (iContinousRndTest s)
            (map (fun p => candidate (deliver p tlen)) pools
             ++ [candidate (deliver pool tlen)]) = false ->
    range_loop (map GenData pools ++ GenData pool :: rest) bits tlen r s
    = (Return (candidate (deliver pool tlen)),
       mkState (candidate (deliver pool tlen)) (acquired s) (released s)
               (repeat tlen (S (List.length pools)) ++ fetched s)).
Proof.
  intros Hacc. induction pools as [|p pools IH]; intros s Hrej Hfresh.
  - cbn [map app]. rewrite range_loop_cons, range_body_data. cbv zeta.
    assert (Hno : (15 <? bits)
                  && (candidate (deliver pool tlen) =? iContinousRndTest s)
                  = false).
    { destruct Hfresh as [Hb|Hr].
      - replace (15 <? bits) with false; [reflexivity|].
        symmetry. apply Z.ltb_ge. lia.
      - cbn in Hr. rewrite orb_false_r in Hr. rewrite Hr. apply andb_false_r. }
    rewrite Hno.
    replace (candidate (deliver pool tlen) <? r) with true
      by (symmetry; now apply Z.ltb_lt).
    reflexivity.
  - inversion Hrej as [|? ? Hp Hrest]; subst.
    cbn [map app]. rewrite range_loop_cons, range_body_data. cbv zeta.
    assert (Hno : (15 <? bits)
                  && (candidate (deliver p tlen) =? iContinousRndTest s)
                  = false).
    { destruct Hfresh as [Hb|Hr].
      - replace (15 <? bits) with false; [reflexivity|].
        symmetry. apply Z.ltb_ge. lia.
      - cbn in Hr. apply orb_false_iff in Hr as [Hr _].
        rewrite Hr. apply andb_false_r. }
    rewrite Hno.
    replace (candidate (deliver p tlen) <? r) with false
      by (symmetry; now apply Z.ltb_ge).
    rewrite IH; [|exact Hrest|].
    + cbn [stored asked acquired released fetched List.length].
      rewrite repeat_app_cons. reflexivity.
    + destruct Hfresh as [Hb|Hr]; [now left|right].
      cbn in Hr. apply orb_false_iff in Hr as [_ Hr]. exact Hr.
Qed.

(** X10. Progress of [range(max)], for [1 < max <= LONG_MAX] with a
    provider at hand: when the generator delivers any number of candidates
    that are too large and then one below [max], and either the width is
    below 16 bits or no candidate equals the one drawn before it, the call
    returns that candidate.  It has then made one request of [t] bytes per
    candidate, opened one handle and released it, and stored the result
    in the static. *)
Theorem range_returns_first_accepted
        (env : Env) (max : Z) (pools : list (nat -> byte)) (pool : nat -> byte)
        (rest : list GenEvent) (s : State) :
  1 < max <= LONG_MAX ->
  aes_ok env || full_ok env = true ->
  gen env = map GenData pools ++ GenData pool :: rest ->
  Forall (fun p => max <= candidate (deliver p (t (upperLimitBits max)))) pools ->
  candidate (deliver pool (t (upperLimitBits max))) < max ->
  upperLimitBits max <= 15 \/
  repeats (iContinousRndTest s)
          (map (fun p => candidate (deliver p (t (upperLimitBits max)))) pools
           ++ [candidate (deliver pool (t (upperLimitBits max)))]) = false ->
  winrandom_range env max s
  = (Return (candidate (deliver pool (t (upperLimitBits max)))),
     mkState (candidate (deliver pool (t (upperLimitBits max))))
             (S (acquired s)) (S (released s))
             (repeat (t (upperLimitBits max)) (S (List.length pools))
              ++ fetched s)).
Proof.
  intros Hmax Hacq Hgen Hrej Hacc Hfresh.
  rewrite (winrandom_range_parsed env max max s
             (parse_l_fits max ltac:(lia)) ltac:(lia)).
  rewrite Hacq, Hgen.
  rewrite (range_loop_discards _ _ _ pool rest Hacc pools (opened s) Hrej Hfresh).
  reflexivity.
Qed.

(** [range(100000)], 17 bits wide: two candidates too large, the third,
    0x010203 = 66051, is returned after three requests of three bytes. *)
Lemma range_returns_first_accepted_witness :
  winrandom_range
    (healthy [GenData (pool_of [xff; xff; xff]);
              GenData (pool_of [xfe; xff; xff]);
              GenData (pool_of [x03; x02; x01])])
    100000 initial_state
  = (Return 66051, mkState 66051 1 1 [3; 3; 3]).
Proof.
  apply (range_returns_first_accepted
           (healthy [GenData (pool_of [xff; xff; xff]);
                     GenData (pool_of [xfe; xff; xff]);
                     GenData (pool_of [x03; x02; x01])])
           100000
           [pool_of [xff; xff; xff]; pool_of [xfe; xff; xff]]
           (pool_of [x03; x02; x01]) [] initial_state).
  - unfold LONG_MAX. lia.
  - reflexivity.
  - reflexivity.
  - repeat constructor; vm_compute; discriminate.
  - vm_compute. reflexivity.
  - right. vm_compute. reflexivity.
Defined.

(** ** Failure order of [long] and [bytes] *)

(** X11. [long()] fails in two ways only: with the provider error exactly
    when neither provider can be acquired, the state then being untouched,
    and with the generation error exactly when a provider was acquired and
    [CryptGenRandom] failed. *)
Theorem long_failure_modes (env : Env) (s : State) :
  (fst (winrandom_long env s) = Raise SourceUnavailable
   <-> aes_ok env || full_ok env = false) /\
  (aes_ok env || full_ok env = false -> snd (winrandom_long env s) = s) /\
  (fst (winrandom_long env s) = Raise GenerationFailed
   <-> aes_ok env || full_ok env = true /\
       exists rest, gen env = GenFail :: rest) /\
  (forall e, fst (winrandom_long env s) = Raise e ->
             e = SourceUnavailable \/ e = GenerationFailed).
Proof.
  rewrite winrandom_long_cases.
  destruct (aes_ok env || full_ok env).
  - destruct (gen env) as [|[|pool] rest]; cbn [fst snd].
    + repeat split; try discriminate; try tauto.
      intros (_ & r0 & H). discriminate.
    + repeat split; try discriminate; try tauto.
      * eexists; reflexivity.
      * intros e [= <-]. now right.
    + repeat split; try discriminate; try tauto.
      intros (_ & r0 & H). discriminate.
  - cbn [fst snd]. repeat split; try discriminate; try tauto.
    + intros [H _]. discriminate.
    + intros e [= <-]. now left.
Qed.

Lemma long_failure_modes_witness :
  fst (winrandom_long (mkEnv false false true []) initial_state)
  = Raise SourceUnavailable /\
  snd (winrandom_long (mkEnv false false true []) initial_state)
  = initial_state /\
  fst (winrandom_long (healthy [GenFail]) initial_state)
  = Raise GenerationFailed.
Proof.
  destruct (long_failure_modes (mkEnv false false true []) initial_state)
    as (Hsrc & Hsame & _ & _).
  destruct (long_failure_modes (healthy [GenFail]) initial_state)
    as (_ & _ & Hgen & _).
  split; [apply Hsrc; reflexivity|].
  split; [apply Hsame; reflexivity|].
  apply Hgen. split; [reflexivity | exists []; reflexivity].
Defined.

(** X12. [bytes(n)] checks in the order of the source: the memory error
    of line 137 is raised exactly when [malloc] fails, whether or not a
    provider exists; the provider error exactly when [malloc] succeeded and
    neither provider can be acquired, the state being untouched in both
    cases; the generation error exactly when [CryptGenRandom] failed on an
    acquired provider.  The only other exceptions are the two that
    [Py_BuildValue] leaves at line 156, after generation succeeded; under
    an interpreter that refuses ['#'] without [PY_SSIZE_T_CLEAN] every call
    that gets there raises the [SystemError], with the handle open. *)
Theorem bytes_failure_order (env : Env) (n : Z) (s : State) :
  (fst (winrandom_bytes env n s) = Raise AllocationFailed
   <-> malloc_ok env = false) /\
  (fst (winrandom_bytes env n s) = Raise SourceUnavailable
   <-> malloc_ok env = true /\ aes_ok env || full_ok env = false) /\
  (malloc_ok env = false \/ aes_ok env || full_ok env = false ->
   snd (winrandom_bytes env n s) = s) /\
  (fst (winrandom_bytes env n s) = Raise GenerationFailed
   <-> malloc_ok env = true /\ aes_ok env || full_ok env = true /\
       exists rest, gen env = GenFail :: rest) /\
  (forall e, fst (winrandom_bytes env n s) = Raise e ->
             e = AllocationFailed \/ e = SourceUnavailable \/
             e = GenerationFailed \/
             (e = FormatRefused /\ build env = BuildRefused \/
              e = NoMemory /\ build env = BuildNoMemory) /\
             malloc_ok env = true /\ aes_ok env || full_ok env = true /\
             exists pool rest, gen env = GenData pool :: rest) /\
  (forall pool rest,
      build env = BuildRefused -> malloc_ok env = true ->
      aes_ok env || full_ok env = true -> gen env = GenData pool :: rest ->
      winrandom_bytes env n s
      = (Raise FormatRefused, asked (n mod UINT_MOD) (opened s))).
Proof.
  rewrite winrandom_bytes_cases. cbv zeta.
  destruct (malloc_ok env).
  - destruct (aes_ok env || full_ok env).
    + destruct (gen env) as [|[|pool] rest].
      * cbn [fst snd].
        split; [split; discriminate|].
        split; [split; [discriminate|intros [_ H]; discriminate]|].
        split; [intros [H|H]; discriminate|].
        split; [split; [discriminate|intros (_ & _ & r0 & H); discriminate]|].
        split; [discriminate|]. intros p r0 _ _ _ H. discriminate.
      * cbn [fst snd].
        split; [split; discriminate|].
        split; [split; [discriminate|intros [_ H]; discriminate]|].
        split; [intros [H|H]; discriminate|].
        split; [split; [intros _|reflexivity]|].
        { split; [reflexivity|]. split; [reflexivity|]. now exists rest. }
        split; [intros e [= <-]; auto|]. intros p r0 _ _ _ H. discriminate.
      * set (m := n mod UINT_MOD).
        destruct (Py_BuildValue_y_outcomes (build env) (deliver pool m) m
                    (asked m (opened s)))
          as [[bs Hout]|[[Hb Hout]|[[Hb Hout]|Hout]]]; rewrite Hout.
        -- split; [split; discriminate|].
           split; [split; [discriminate|intros [_ H]; discriminate]|].
           split; [intros [H|H]; discriminate|].
           split; [split; [discriminate|intros (_ & _ & r0 & H); discriminate]|].
           split; [discriminate|].
           intros p r0 Hb _ _ _. exfalso. revert Hout.
           rewrite Hb. discriminate.
        -- split; [split; discriminate|].
           split; [split; [discriminate|intros [_ H]; discriminate]|].
           split; [intros [H|H]; discriminate|].
           split; [split; [discriminate|intros (_ & _ & r0 & H); discriminate]|].
           split.
           ++ intros e [= <-]. right. right. right.
              split; [left; auto|]. split; [reflexivity|].
              split; [reflexivity|]. now exists pool, rest.
           ++ intros p r0 _ _ _ [= <- _]. rewrite Hb. reflexivity.
        -- split; [split; discriminate|].
           split; [split; [discriminate|intros [_ H]; discriminate]|].
           split; [intros [H|H]; discriminate|].
           split; [split; [discriminate|intros (_ & _ & r0 & H); discriminate]|].
           split.
           ++ intros e [= <-]. right. right. right.
              split; [right; auto|]. split; [reflexivity|].
              split; [reflexivity|]. now exists pool, rest.
           ++ intros p r0 Hb'. rewrite Hb in Hb'. discriminate.
        -- split; [split; discriminate|].
           split; [split; [discriminate|intros [_ H]; discriminate]|].
           split; [intros [H|H]; discriminate|].
           split; [split; [discriminate|intros (_ & _ & r0 & H); discriminate]|].
           split; [discriminate|].
           intros p r0 Hb _ _ _. exfalso. revert Hout.
           rewrite Hb. discriminate.
    + cbn [fst snd].
      split; [split; discriminate|].
      split; [split; [auto|reflexivity]|].
      split; [reflexivity|].
      split; [split; [discriminate|intros (_ & H & _); discriminate]|].
      split; [intros e [= <-]; auto|]. intros p r0 _ _ H. discriminate.
  - cbn [fst snd].
    split; [split; reflexivity|].
    split; [split; [discriminate|intros [H _]; discriminate]|].
    split; [reflexivity|].
    split; [split; [discriminate|intros (H & _); discriminate]|].
    split; [intros e [= <-]; auto|]. intros p r0 _ H. discriminate.
Qed.

(** No memory and no provider: the memory error of line 137 wins.  With
    memory, provider and bytes at hand, an interpreter that refuses the
    format raises its [SystemError]. *)
Lemma bytes_failure_order_witness :
  fst (winrandom_bytes (mkEnv false false false []) 16 initial_state)
  = Raise AllocationFailed /\
  snd (winrandom_bytes (mkEnv false false false []) 16 initial_state)
  = initial_state /\
  winrandom_bytes
    (mkRuntimeEnv true true true [GenData (pool_of [x01; x02])] BuildRefused)
    2 initial_state
  = (Raise FormatRefused, mkState 0 1 0 [2]).
Proof.
  destruct (bytes_failure_order (mkEnv false false false []) 16 initial_state)
    as (Halloc & _ & Hsame & _).
  destruct (bytes_failure_order
              (mkRuntimeEnv true true true [GenData (pool_of [x01; x02])]
                            BuildRefused) 2 initial_state)
    as (_ & _ & _ & _ & _ & Hrefused).
  split; [apply Halloc; reflexivity|].
  split; [apply Hsame; left; reflexivity|].
  apply (Hrefused (pool_of [x01; x02]) []); reflexivity.
Defined.

(** ** The byte count of [bytes] *)

(** What [strlen] finds: a zero byte at the index it returns and none
    before it. *)
Lemma strlen_Some (buf : list byte) :
  forall k : nat,
    strlen buf = Some k ->
    (k < List.length buf)%nat /\ nth k buf x01 = x00 /\
    List.length (firstn k buf) = k /\ ~ In x00 (firstn k buf).
Proof.
  induction buf as [|b tl IH]; intros k H; [discriminate|].
  cbn [strlen] in H. destruct (Byte.eqb b x00) eqn:E.
  - injection H as <-. apply Byte.byte_dec_bl in E. subst b.
    cbn. split; [lia|]. split; [reflexivity|]. split; [reflexivity|].
    intros [].
  - destruct (strlen tl) as [k'|] eqn:Hs; [|discriminate].
    injection H as <-. destruct (IH k' eq_refl) as (Hlt & Hnth & Hlen & Hin).
    cbn [List.length nth firstn].
    split; [lia|]. split; [exact Hnth|]. split; [rewrite Hlen; reflexivity|].
    intros [Hb|Hin']; [|contradiction].
    subst b. discriminate.
Qed.

(** X13. [bytes(n)] refuses no integer: the count is stored in a 32-bit
    [unsigned int] without overflow check.  A call behaves as the call
    with [n mod 2^32] and never raises the parse error; when it returns it
    has asked the generator for [n mod 2^32] bytes (for [-2^32 <= n < 0],
    [2^32 + n] bytes).  It returns all of them when the count is at most
    [INT_MAX]; a larger count reaches [Py_BuildValue] as a negative [int],
    and the bytes returned are those delivered before the first zero
    byte. *)
Theorem bytes_count_wraps (env : Env) (n : Z) (s : State) :
  winrandom_bytes env n s = winrandom_bytes env (n mod UINT_MOD) s /\
  fst (winrandom_bytes env n s) <> Raise ParseError /\
  (forall (bs : list byte) (s' : State),
      winrandom_bytes env n s = (Return bs, s') ->
      fetched s' = n mod UINT_MOD :: fetched s /\
      exists pool rest,
        gen env = GenData pool :: rest /\
        (n mod UINT_MOD <= INT_MAX -> bs = deliver pool (n mod UINT_MOD)) /\
        (INT_MAX < n mod UINT_MOD ->
         (List.length bs < Z.to_nat (n mod UINT_MOD))%nat /\
         bs = firstn (List.length bs) (deliver pool (n mod UINT_MOD)) /\
         nth (List.length bs) (deliver pool (n mod UINT_MOD)) x01 = x00 /\
         ~ In x00 bs)) /\
  (- UINT_MOD <= n < 0 -> n mod UINT_MOD = UINT_MOD + n).
Proof.
  pose proof (Z.mod_pos_bound n UINT_MOD ltac:(reflexivity)) as Hm.
  split; [|split; [|split]].
  - rewrite !winrandom_bytes_cases. cbv zeta.
    rewrite Z.mod_mod by discriminate. reflexivity.
  - rewrite winrandom_bytes_cases. cbv zeta.
    destruct (malloc_ok env); [|discriminate].
    destruct (aes_ok env || full_ok env); [|discriminate].
    destruct (gen env) as [|[|pool] rest]; try discriminate.
    destruct (Py_BuildValue_y_outcomes (build env)
                (deliver pool (n mod UINT_MOD)) (n mod UINT_MOD)
                (asked (n mod UINT_MOD) (opened s)))
      as [[bs ->]|[[_ ->]|[[_ ->]| ->]]]; discriminate.
  - intros bs s'. rewrite winrandom_bytes_cases. cbv zeta.
    destruct (malloc_ok env); [|discriminate].
    destruct (aes_ok env || full_ok env); [|discriminate].
    destruct (gen env) as [|[|pool] rest]; try discriminate.
    set (m := n mod UINT_MOD) in *. intros H.
    assert (Hst : s' = asked m (opened s)).
    { pose proof (Py_BuildValue_y_state (build env) (deliver pool m) m
                    (asked m (opened s))) as Hs.
      rewrite H in Hs. exact Hs. }
    split; [rewrite Hst; reflexivity|].
    exists pool, rest. split; [reflexivity|].
    unfold Py_BuildValue_y in H. destruct (build env); try discriminate.
    cbv zeta in H. unfold as_int, INT_MAX in *. change UINT_MOD with (2 ^ 32) in Hm.
    destruct (m <? 2 ^ 31) eqn:Hsmall.
    + apply Z.ltb_lt in Hsmall.
      replace (m <? 0) with false in H by (symmetry; apply Z.ltb_ge; lia).
      injection H as <- _. split; [|intros; lia].
      intros _. rewrite <- (deliver_length pool m). apply firstn_all.
    + apply Z.ltb_ge in Hsmall.
      replace (m - 2 ^ 32 <? 0) with true in H by (symmetry; apply Z.ltb_lt; lia).
      destruct (strlen (deliver pool m)) as [k|] eqn:Hk; [|discriminate].
      injection H as <- _. split; [intros; lia|]. intros _.
      destruct (strlen_Some _ k Hk) as (Hlt & Hnth & Hlen & Hin).
      rewrite Hlen. rewrite deliver_length in Hlt. auto.
  - intros Hn. symmetry. apply (Z.mod_unique n UINT_MOD (-1)); lia.
Qed.

(** [bytes(2^32 + 2)] returns two bytes, the count [-4294967294] wraps to
    2. *)
Lemma bytes_count_wraps_witness :
  winrandom_bytes (healthy [GenData (pool_of [x0a; x0b; x0c])])
                  4294967298 initial_state
  = (Return [x0a; x0b], mkState 0 1 0 [2]) /\
  fetched (mkState 0 1 0 [2]) = 4294967298 mod UINT_MOD :: [] /\
  (-4294967294) mod UINT_MOD = UINT_MOD + -4294967294.
Proof.
  destruct (bytes_count_wraps (healthy [GenData (pool_of [x0a; x0b; x0c])])
              4294967298 initial_state) as (_ & _ & Hlen & _).
  destruct (bytes_count_wraps (healthy [GenData (pool_of [x0a; x0b; x0c])])
              (-4294967294) initial_state) as (_ & _ & _ & Hneg).
  split; [reflexivity|].
  split.
  - apply (Hlen [x0a; x0b] (mkState 0 1 0 [2])). reflexivity.
  - apply Hneg. vm_compute. split; [discriminate|reflexivity].
Defined.

(** ** A generation failure after discarded candidates *)


Lemma range_loop_gen_failure (bits tlen r : Z) (rest : list GenEvent) :
  forall (pools : list (nat -> byte)) (s : State),
    Forall (fun p => r <= candidate (deliver p tlen)) pools ->
    bits <= 15 \/
    repeats (iContinousRndTest s)
            (map (fun p => candidate (deliver p tlen)) pools) = false ->
    range_loop (map GenData pools ++ GenFail :: rest) bits tlen r s
    = (Raise GenerationFailed,
       mkState (last (map (fun p => candidate (deliver p tlen)) pools)
                     (iContinousRndTest s))
               (acquired s) (released s)
               (repeat tlen (S (List.length pools)) ++ fetched s)).
Proof.
  induction pools as [|p pools IH]; intros s Hrej Hfresh.
  - cbn [map app]. rewrite range_loop_cons, range_body_fail. reflexivity.
  - inversion Hrej as [|? ? Hp Hrest]; subst.
    cbn [map app]. rewrite range_loop_cons, range_body_data. cbv zeta.
    assert (Hno : (15 <? bits)
                  && (candidate (deliver p tlen) =? iContinousRndTest s)
                  = false).
    { destruct Hfresh as [Hb|Hr].
      - replace (15 <? bits) with false; [reflexivity|].
        symmetry. apply Z.ltb_ge. lia.
      - cbn in Hr. apply orb_false_iff in Hr as [Hr _].
        rewrite Hr. apply andb_false_r. }
    rewrite Hno.
    replace (candidate (deliver p tlen) <? r) with false
      by (symmetry; now apply Z.ltb_ge).
    rewrite IH; [|exact Hrest|].
    + cbn [stored asked iContinousRndTest acquired released fetched List.length].
      rewrite repeat_app_cons, last_cons_default. reflexivity.
    + destruct Hfresh as [Hb|Hr]; [now left|right].
      cbn in Hr. apply orb_false_iff in Hr as [_ Hr]. exact Hr.
Qed.

(** X14. A failing [CryptGenRandom] ends [range(max)] at once, also after
    candidates were discarded: the call raises the generation error
    without asking the generator again, the static keeps the last
    discarded candidate, and the handle that was opened stays open. *)
Theorem range_generation_failure_final
        (env : Env) (max : Z) (pools : list (nat -> byte))
        (rest : list GenEvent) (s : State) :
  1 < max <= LONG_MAX ->
  aes_ok env || full_ok env = true ->
  gen env = map GenData pools ++ GenFail :: rest ->
  Forall (fun p => max <= candidate (deliver p (t (upperLimitBits max)))) pools ->
  upperLimitBits max <= 15 \/
  repeats (iContinousRndTest s)
          (map (fun p => candidate (deliver p (t (upperLimitBits max)))) pools)
  = false ->
  winrandom_range env max s
  = (Raise GenerationFailed,
     mkState (last (map (fun p => candidate (deliver p (t (upperLimitBits max))))
                        pools)
                   (iContinousRndTest s))
             (S (acquired s)) (released s)
             (repeat (t (upperLimitBits max)) (S (List.length pools))
              ++ fetched s)).
Proof.
  intros Hmax Hacq Hgen Hrej Hfresh.
  rewrite (winrandom_range_parsed env max max s
             (parse_l_fits max ltac:(lia)) ltac:(lia)).
  rewrite Hacq, Hgen.
  rewrite (range_loop_gen_failure _ _ _ rest pools (opened s) Hrej Hfresh).
  reflexivity.
Qed.

(** [range(200)]: the byte 240 is discarded, the next request fails, and
    the answer scripted after it is never asked for. *)
Lemma range_generation_failure_final_witness :
  winrandom_range
    (healthy [GenData (pool_of [xf0]); GenFail; GenData (pool_of [x07])])
    200 initial_state
  = (Raise GenerationFailed, mkState 240 1 0 [1; 1]).
Proof.
  apply (range_generation_failure_final
           (healthy [GenData (pool_of [xf0]); GenFail; GenData (pool_of [x07])])
           200 [pool_of [xf0]] [GenData (pool_of [x07])] initial_state).
  - unfold LONG_MAX. lia.
  - reflexivity.
  - reflexivity.
  - repeat constructor. vm_compute. discriminate.
  - left. vm_compute. discriminate.
Defined.

(** ** Which values [range] can return *)

Lemma byte_of_Z_val (b : byte) (x : Z) : byte_of_Z (byte_val b + 256 * x) = b.
Proof.
  unfold byte_of_Z.
  pose proof (byte_val_range b) as Hb.
  replace ((byte_val b + 256 * x) mod 256) with (byte_val b).
  - unfold byte_val. rewrite N2Z.id, Byte.of_to_N. reflexivity.
  - apply (Z.mod_unique _ 256 x); lia.
Qed.

Lemma le_encode_decode (bs : list byte) :
  le_encode (List.length bs) (le_decode bs) = bs.
Proof.
  induction bs as [|b tl IH]; [reflexivity|].
  change (le_decode (b :: tl)) with (byte_val b + 256 * le_decode tl).
  change (le_encode (List.length (b :: tl)) (byte_val b + 256 * le_decode tl))
    with (byte_of_Z (byte_val b + 256 * le_decode tl)
          :: le_encode (List.length tl)
               ((byte_val b + 256 * le_decode tl) / 256)).
  rewrite byte_of_Z_val. f_equal.
  pose proof (byte_val_range b) as Hb.
  replace ((byte_val b + 256 * le_decode tl) / 256) with (le_decode tl);
    [exact IH|].
  apply (Z.div_unique _ 256 _ (byte_val b)); lia.
Qed.

(** The byte space reaches every value below [max - 1]. *)
Lemma byte_space_reaches (r : Z) :
  1 < r -> r - 1 <= 256 ^ t (upperLimitBits r).
Proof.
  intros Hr.
  pose proof (upperLimitBits_nonneg r) as Hnn.
  pose proof (ceil_div8_bounds (upperLimitBits r)) as Ht.
  fold (t (upperLimitBits r)) in Ht.
  assert (Hle : r - 1 <= 2 ^ upperLimitBits r).
  { destruct (Z.eq_dec r 2) as [->|Hne]; [vm_compute; discriminate|].
    apply upperLimitBits_spec. lia. }
  assert (Hpow : 2 ^ upperLimitBits r <= 2 ^ (8 * t (upperLimitBits r)))
    by (apply Z.pow_le_mono_r; lia).
  rewrite Z.pow_mul_r in Hpow by lia. change (2 ^ 8) with 256 in Hpow. lia.
Qed.

(** X15. [range(max)] can return every value [0 <= c < max] that fits the
    [t] bytes it fetches, and each for exactly one [t]-byte answer of the
    generator, the little-endian bytes of [c]; so equally likely answers
    give equally likely results.  The byte space reaches [max - 1], so
    [max - 1] is the only value below [max] that can fail to fit. *)
Theorem range_reaches_every_value
        (env : Env) (max c : Z) (rest : list GenEvent) (s : State) :
  1 < max <= LONG_MAX ->
  aes_ok env || full_ok env = true ->
  0 <= c < max ->
  c < 256 ^ t (upperLimitBits max) ->
  upperLimitBits max <= 15 \/ c <> iContinousRndTest s ->
  gen env
  = GenData (pool_of (le_encode (Z.to_nat (t (upperLimitBits max))) c)) :: rest ->
  fst (winrandom_range env max s) = Return c /\
  (forall pool : nat -> byte,
      candidate (deliver pool (t (upperLimitBits max))) = c ->
      deliver pool (t (upperLimitBits max))
      = le_encode (Z.to_nat (t (upperLimitBits max))) c) /\
  max - 1 <= 256 ^ t (upperLimitBits max).
Proof.
  intros Hmax Hacq Hc Hfit Hfresh Hgen.
  set (tlen := t (upperLimitBits max)) in *.
  assert (Ht : 0 <= tlen <= Z.of_nat sizeof_ulong).
  { apply t_fits_ulong. unfold LONG_MAX in Hmax.
    change ULONG_MOD with 4294967296. lia. }
  assert (Hcand : candidate (deliver (pool_of (le_encode (Z.to_nat tlen) c)) tlen)
                  = c).
  { rewrite candidate_le_decode.
    rewrite <- (Z2Nat.id tlen) at 2 by lia.
    rewrite <- (le_encode_length (Z.to_nat tlen) c) at 2.
    rewrite deliver_pool_of. apply le_decode_encode.
    rewrite Z2Nat.id by lia. lia. }
  split; [|split].
  - rewrite (winrandom_range_parsed env max max s
               (parse_l_fits max ltac:(lia)) ltac:(lia)).
    rewrite Hacq, Hgen.
    assert (Hfresh' : upperLimitBits max <= 15 \/
                      repeats (iContinousRndTest (opened s))
                        (map (fun p => candidate (deliver p tlen)) []
                         ++ [candidate
                               (deliver (pool_of (le_encode (Z.to_nat tlen) c))
                                        tlen)]) = false).
    { destruct Hfresh as [Hb|Hne]; [now left|right].
      cbn. rewrite Hcand, orb_false_r. now apply Z.eqb_neq. }
    pose proof (range_loop_discards (upperLimitBits max) tlen max
                  (pool_of (le_encode (Z.to_nat tlen) c)) rest
                  ltac:(rewrite Hcand; lia) [] (opened s) (Forall_nil _)
                  Hfresh') as Hloop.
    cbn [map app] in Hloop. fold tlen. rewrite Hloop, Hcand. reflexivity.
  - intros pool Hpool. rewrite candidate_le_decode in Hpool.
    rewrite <- Hpool.
    rewrite <- (deliver_length pool tlen).
    symmetry. apply le_encode_decode.
  - apply byte_space_reaches. lia.
Qed.

(** [range(200)] returns 199 for the byte c7. *)
Lemma range_reaches_every_value_witness :
  fst (winrandom_range (healthy [GenData (pool_of [xc7])]) 200 initial_state)
  = Return 199.
Proof.
  apply (range_reaches_every_value
           (healthy [GenData (pool_of [xc7])]) 200 199 [] initial_state).
  - unfold LONG_MAX. lia.
  - reflexivity.
  - lia.
  - vm_compute. reflexivity.
  - left. vm_compute. discriminate.
  - reflexivity.
Defined.
